(** * Vegetation health assessment with Sentinel-2 in Earth Engine

    A shallow embedding of [src/main.py]: the per-pixel compositing pipeline
    (cloud masking, NDVI, monthly maximum-value composites, annual mean and
    reprojection), and the properties of it that the specification states.

    The script is a chain of Earth Engine calls.  The Earth Engine operators
    it uses are modelled in [Module EE] after their documented behaviour; the
    functions of the script itself ([get_sentinel2_collection],
    [mask_s2_clouds], [add_ndvi], [create_monthly_mvc], ...) follow the source
    line by line on top of them.

    Conventions of the model:
    - a raster is a total function from grid cells to samples, a sample being
      [None] where the pixel is masked (nodata) and [Some v] otherwise;
    - the digital numbers of the archive (COPERNICUS/S2_SR stores unsigned
      integers) are in [N], reflectances and index values are exact rationals
      in [Q]: rounding of the floating-point arithmetic is not modelled;
    - Earth Engine evaluates lazily and reports the failure of any node the
      requested result depends on; this is the error monad [result].

    Behaviour of the operators that the results rest on: a band selector
    that matches no band of an image is an error; an error raised for one
    element of a mapped collection is an error of the collection; a mosaic
    or a reduction of an empty collection is an image without bands;
    [ee.Algorithms.If] yields the selected case only. *)

From Stdlib Require Import ZArith NArith QArith Qminmax.
From Stdlib Require Import List String Ascii Bool Lia Lqa Permutation.
Import ListNotations.

Local Open Scope Z_scope.

(** ** Failures of an evaluation *)

Inductive EEException : Type :=
| BandNotMatched (pattern : string)
    (* "Image.select: Pattern '...' did not match any bands" *)
| DateUnparseable (text : string).

Inductive result (A : Type) : Type :=
| Ok (a : A)
| Raise (e : EEException).

Arguments Ok {A} a.
Arguments Raise {A} e.

Definition bind {A B : Type} (c : result A) (k : A -> result B) : result B :=
  match c with
  | Ok a => k a
  | Raise e => Raise e
  end.

Notation "x <- c ;; k" := (bind c (fun x => k))
  (at level 61, c at next level, right associativity).

(** [collection.map(f)]: the mapped collection exists only if [f] succeeds on
    every element. *)
Fixpoint mapM {A B : Type} (f : A -> result B) (l : list A) : result (list B) :=
  match l with
  | [] => Ok []
  | a :: l' => b <- f a ;; bs <- mapM f l' ;; Ok (b :: bs)
  end.

Definition is_ok {A : Type} (c : result A) : bool :=
  match c with Ok _ => true | Raise _ => false end.

(** ** Dates: [ee.Date], milliseconds since 1970-01-01T00:00 UTC *)

Module Date.

Definition millis_per_day : Z := 86400000.

(** Days since the epoch of a proleptic Gregorian civil date. *)
Definition days_from_civil (y m d : Z) : Z :=
  let y' := if m <=? 2 then y - 1 else y in
  let era := y' / 400 in
  let yoe := y' - era * 400 in
  let mp := (m + 9) mod 12 in
  let doy := (153 * mp + 2) / 5 + d - 1 in
  let doe := yoe * 365 + yoe / 4 - yoe / 100 + doy in
  era * 146097 + doe - 719468.

Definition civil_from_days (z : Z) : Z * Z * Z :=
  let z' := z + 719468 in
  let era := z' / 146097 in
  let doe := z' - era * 146097 in
  let yoe := (doe - doe / 1460 + doe / 36524 - doe / 146096) / 365 in
  let doy := doe - (365 * yoe + yoe / 4 - yoe / 100) in
  let mp := (5 * doy + 2) / 153 in
  let d := doy - (153 * mp + 2) / 5 + 1 in
  let m := if mp <? 10 then mp + 3 else mp - 9 in
  let y := yoe + era * 400 in
  (if m <=? 2 then y + 1 else y, m, d).

Definition is_leap (y : Z) : bool :=
  ((y mod 4 =? 0) && negb (y mod 100 =? 0)) || (y mod 400 =? 0).

Definition days_in_month (y m : Z) : Z :=
  if m =? 2 then (if is_leap y then 29 else 28)
  else if (m =? 4) || (m =? 6) || (m =? 9) || (m =? 11) then 30
  else 31.

Definition digit (c : ascii) : option Z :=
  let n := Z.of_nat (nat_of_ascii c) in
  if (48 <=? n) && (n <=? 57) then Some (n - 48) else None.

Fixpoint number_from (acc : Z) (s : string) : option Z :=
  match s with
  | EmptyString => Some acc
  | String c s' =>
      match digit c with
      | Some d => number_from (10 * acc + d) s'
      | None => None
      end
  end.

Definition number (s : string) : option Z :=
  match s with
  | EmptyString => None
  | _ => number_from 0 s
  end.

(** [ee.Date('YYYY-MM-DD')]: midnight UTC of that day. *)
Definition parse (s : string) : result Z :=
  match number (substring 0 4 s), number (substring 5 2 s),
        number (substring 8 2 s) with
  | Some y, Some m, Some d =>
      if (String.length s =? 10)%nat
         && String.eqb (substring 4 1 s) "-"
         && String.eqb (substring 7 1 s) "-"
         && (1 <=? m) && (m <=? 12) && (1 <=? d) && (d <=? days_in_month y m)
      then Ok (days_from_civil y m d * millis_per_day)
      else Raise (DateUnparseable s)
  | _, _, _ => Raise (DateUnparseable s)
  end.

(** [date.advance(delta, 'month')]: the same day of the month and time of
    day [delta] calendar months later, the day clamped to the length of the
    target month. *)
Definition advance_month (t delta : Z) : Z :=
  let days := t / millis_per_day in
  let rest := t mod millis_per_day in
  let '(y, m, d) := civil_from_days days in
  let total := y * 12 + (m - 1) + delta in
  let y2 := total / 12 in
  let m2 := total mod 12 + 1 in
  let d2 := Z.min d (days_in_month y2 m2) in
  days_from_civil y2 m2 d2 * millis_per_day + rest.

End Date.

(** ** Rasters and images *)

Definition Pixel : Type := (Z * Z)%type.

Definition Raster (V : Type) : Type := Pixel -> option V.

(** [ee.Geometry.Rectangle([west, south, east, north])]. *)
Record Rectangle : Type := mkRectangle
  { west : Q; south : Q; east : Q; north : Q }.

(** An image: its bands in order, the property [system:time_start], its
    footprint ([None]: unbounded, as for composites) and the projection a
    [reproject] has fixed for it, if any, as (crs, scale). *)
Record Image (V : Type) : Type := mkImage
  { bands : list (string * Raster V);
    time_start : option Z;
    footprint : option Rectangle;
    projection : option (string * Z) }.

Arguments mkImage {V} _ _ _ _.
Arguments bands {V} _.
Arguments time_start {V} _.
Arguments footprint {V} _.
Arguments projection {V} _.

Definition with_bands {V W : Type} (img : Image V)
  (bs : list (string * Raster W)) : Image W :=
  mkImage bs (time_start img) (footprint img) (projection img).

Definition lookup_band {V : Type} (name : string)
  (bs : list (string * Raster V)) : option (Raster V) :=
  option_map snd (find (fun b => String.eqb name (fst b)) bs).

(** The sample an image holds for band [name] at pixel [p]: [None] both where
    the band is masked and where the image has no such band. *)
Definition pixel_value {V : Type} (img : Image V) (name : string) (p : Pixel)
  : option V :=
  match lookup_band name (bands img) with
  | Some r => r p
  | None => None
  end.

Definition has_band {V : Type} (img : Image V) (name : string) : bool :=
  existsb (fun b => String.eqb name (fst b)) (bands img).

(** The raster of a one-band operand (the first band). *)
Definition first_raster {V : Type} (img : Image V) : Raster V :=
  match bands img with
  | (_, r) :: _ => r
  | [] => fun _ => None
  end.

(** ** The Earth Engine operators the script calls *)

Module EE.

(** Band selectors are regular expressions matched against the whole band
    name.  The script uses literal names and the one pattern ["B.*"]; a
    selector ending in [.*] is a prefix match on what precedes it. *)
Definition pattern_matches (pattern name : string) : bool :=
  let n := String.length pattern in
  if (2 <=? n)%nat && String.eqb (substring (n - 2) 2 pattern) ".*"
  then String.prefix (substring 0 (n - 2) pattern) name
  else String.eqb pattern name.

(** [image.select(pattern)]: the matching bands, in order, metadata kept;
    it is an error when no band matches. *)
Definition select {V : Type} (img : Image V) (pattern : string)
  : result (Image V) :=
  match filter (fun b => pattern_matches pattern (fst b)) (bands img) with
  | [] => Raise (BandNotMatched pattern)
  | bs => Ok (with_bands img bs)
  end.

Definition bandNames {V : Type} (img : Image V) : list string :=
  map fst (bands img).

Definition contains (l : list string) (s : string) : bool :=
  existsb (String.eqb s) l.

(** [ee.Algorithms.If(condition, trueCase, falseCase)]: the value of the
    selected case; the other case is not part of the result. *)
Definition Algorithms_If {A : Type} (condition : bool) (trueCase falseCase : A)
  : A :=
  if condition then trueCase else falseCase.

(** Pixel-wise arithmetic with a constant: masked stays masked; the result
    keeps the footprint of its input but not its properties. *)
Definition pointwise {V W : Type} (f : V -> W) (img : Image V) : Image W :=
  mkImage (map (fun b => (fst b, fun p => option_map f (snd b p))) (bands img))
          None (footprint img) (projection img).

(** Pixel-wise operation of each band of [a] with the one band of [b]:
    defined only where both are. *)
Definition pointwise2 {V W X : Type} (f : V -> W -> X)
  (a : Image V) (b : Image W) : Image X :=
  let rb := first_raster b in
  mkImage (map (fun band =>
                  (fst band,
                   fun p => match snd band p, rb p with
                            | Some x, Some y => Some (f x y)
                            | _, _ => None
                            end)) (bands a))
          None (footprint a) (projection a).

Definition bitwiseAnd (img : Image N) (c : N) : Image N :=
  pointwise (fun v => N.land v c) img.

Definition eq (img : Image N) (c : N) : Image N :=
  pointwise (fun v => if N.eqb v c then 1%N else 0%N) img.

Definition And (a b : Image N) : Image N :=
  pointwise2 (fun x y => if negb (N.eqb x 0) && negb (N.eqb y 0)
                         then 1%N else 0%N) a b.

Definition Or (a b : Image N) : Image N :=
  pointwise2 (fun x y => if negb (N.eqb x 0) || negb (N.eqb y 0)
                         then 1%N else 0%N) a b.

(** [image.updateMask(mask)]: a pixel of any band stays valid only where it
    was valid and the mask is valid and non-zero; metadata is kept. *)
Definition updateMask {V : Type} (img : Image V) (mask : Image N) : Image V :=
  let m := first_raster mask in
  with_bands img
    (map (fun band =>
            (fst band,
             fun p => match m p with
                      | Some v => if N.eqb v 0 then None else snd band p
                      | None => None
                      end)) (bands img)).

(** [image.divide(c)]: floating-point quotient, 0 for a division by 0. *)
Definition divide (img : Image N) (c : Z) : Image Q :=
  pointwise (fun v => if c =? 0 then 0%Q
                      else (inject_Z (Z.of_N v) / inject_Z c)%Q) img.

(** [dst.copyProperties(src, properties)]. *)
Definition copyProperties {V W : Type} (dst : Image V) (src : Image W)
  (properties : list string) : Image V :=
  if contains properties "system:time_start" then
    match time_start src with
    | Some t => mkImage (bands dst) (Some t) (footprint dst) (projection dst)
    | None => dst
    end
  else dst.

(** [image.set(key, value)] for the one property the model carries. *)
Definition set {V : Type} (img : Image V) (key : string) (value : Z) : Image V :=
  if String.eqb key "system:time_start"
  then mkImage (bands img) (Some value) (footprint img) (projection img)
  else img.

(** Modelled from the spec: the sample of [normalizedDifference] where the
    sum of the two inputs is zero, which the operator's documentation leaves
    open and the specification gives as nodata.  The rest is the documented
    behaviour: the band is named ["nd"], it is [(first - second) / (first +
    second)], masked where either input is masked or negative, and the
    properties of the input are not retained. *)
Definition normalized (x y : Q) : option Q :=
  if Qle_bool 0 x && Qle_bool 0 y
  then (if Qeq_bool (x + y) 0 then None else Some ((x - y) / (x + y))%Q)
  else None.

Definition normalizedDifference (img : Image Q) (bandNames : string * string)
  : result (Image Q) :=
  first <- select img (fst bandNames) ;;
  second <- select img (snd bandNames) ;;
  let ra := first_raster first in
  let rb := first_raster second in
  Ok (mkImage [("nd"%string,
                fun p => match ra p, rb p with
                         | Some x, Some y => normalized x y
                         | _, _ => None
                         end)]
              None (footprint img) (projection img)).

(** [image.rename(name)] of a one-band image. *)
Definition rename {V : Type} (img : Image V) (name : string) : Image V :=
  with_bands img (map (fun b => (name, snd b)) (bands img)).

(** [image.addBands(src)]: the bands of [src] appended; a name already in
    use gets the suffix [_1]. *)
Definition addBands {V : Type} (img src : Image V) : Image V :=
  with_bands img
    (bands img ++
     map (fun b => (if contains (bandNames img) (fst b)
                    then (fst b ++ "_1")%string else fst b, snd b))
         (bands src)).

Definition intersects (a b : Rectangle) : bool :=
  Qle_bool (west a) (east b) && Qle_bool (west b) (east a)
  && Qle_bool (south a) (north b) && Qle_bool (south b) (north a).

(** [collection.filterBounds(geometry)]. *)
Definition filterBounds {V : Type} (c : list (Image V)) (g : Rectangle)
  : list (Image V) :=
  filter (fun i => match footprint i with
                   | Some f => intersects f g
                   | None => true
                   end) c.

(** [collection.filterDate(start, end)]: [start] inclusive, [end] exclusive,
    on [system:time_start]. *)
Definition in_range (start end_ : Z) {V : Type} (i : Image V) : bool :=
  match time_start i with
  | Some t => (start <=? t) && (t <? end_)
  | None => false
  end.

Definition filterDate {V : Type} (c : list (Image V)) (start end_ : Z)
  : list (Image V) :=
  filter (in_range start end_) c.

(** [collection.select(pattern)] is [select] mapped over the collection. *)
Definition ic_select {V : Type} (c : list (Image V)) (pattern : string)
  : result (list (Image V)) :=
  mapM (fun i => select i pattern) c.

(** [collection.qualityMosaic(band)]: at each pixel the output takes all
    its bands from the image whose quality band is greatest there among the
    images valid at that pixel (here the earliest such image on a tie).
    Band names come from the images of the collection: an empty collection
    gives an image without bands. *)
Definition better (quality : string) (p : Pixel)
  (best : option (Image Q)) (cand : Image Q) : option (Image Q) :=
  match pixel_value cand quality p with
  | None => best
  | Some v =>
      match best with
      | None => Some cand
      | Some b =>
          match pixel_value b quality p with
          | Some w => if Qle_bool v w then best else Some cand
          | None => Some cand
          end
      end
  end.

Definition winner (quality : string) (p : Pixel) (c : list (Image Q))
  : option (Image Q) :=
  fold_left (better quality p) c None.

Definition qualityMosaic (c : list (Image Q)) (quality : string)
  : result (Image Q) :=
  match c with
  | [] => Ok (mkImage [] None None None)
  | first :: _ =>
      if forallb (fun i => has_band i quality) c then
        Ok (mkImage
              (map (fun b =>
                      (fst b,
                       fun p => match winner quality p c with
                                | Some w => pixel_value w (fst b) p
                                | None => None
                                end)) (bands first))
              None None None)
      else Raise (BandNotMatched quality)
  end.

(** [collection.mean()]: per band and pixel, the mean reducer over the
    samples that are valid; masked where none is.  The output keeps the band
    names; an empty collection gives an image without bands. *)
Definition accumulate (acc : Q * Z) (s : option Q) : Q * Z :=
  match s with
  | Some v => ((fst acc + v)%Q, snd acc + 1)
  | None => acc
  end.

Definition mean_samples (l : list (option Q)) : option Q :=
  let '(s, n) := fold_left accumulate l (0%Q, 0) in
  if n =? 0 then None else Some (s / inject_Z n)%Q.

Definition ic_mean (c : list (Image Q)) : Image Q :=
  match c with
  | [] => mkImage [] None None None
  | first :: _ =>
      mkImage
        (map (fun b =>
                (fst b,
                 fun p => mean_samples
                            (map (fun i => pixel_value i (fst b) p) c)))
             (bands first))
        None None None
  end.

(** [image.reproject(crs, None, scale)]: fixes the grid the image is
    computed on.  Pixels of the model are the cells of the grid the result
    is requested on, so the samples are unchanged. *)
Definition reproject {V : Type} (img : Image V) (crs : string) (scale : Z)
  : Image V :=
  mkImage (bands img) (time_start img) (footprint img) (Some (crs, scale)).

End EE.

(** ** The script *)

(** 1. Area of interest and time frame. *)
Definition aoi : Rectangle := mkRectangle 48.180 30.859 48.364 31.080.
Definition start_date : string := "2024-03-01".
Definition end_date : string := "2024-10-31".

(** 2. The Sentinel-2 collection; [archive] is the content of
    [ee.ImageCollection('COPERNICUS/S2_SR')]. *)
Definition get_sentinel2_collection (archive : list (Image N))
  (aoi : Rectangle) (start_date end_date : string) : result (list (Image N)) :=
  s <- Date.parse start_date ;;
  e <- Date.parse end_date ;;
  Ok (EE.filterDate (EE.filterBounds archive aoi) s e).

(** 3. Cloud masking. *)
Definition cloud_bit_mask : N := N.shiftl 1 10.
Definition cirrus_bit_mask : N := N.shiftl 1 11.

Definition mask_with_qa (img : Image N) : result (Image N) :=
  qa <- EE.select img "QA60" ;;
  let mask := EE.And (EE.eq (EE.bitwiseAnd qa cloud_bit_mask) 0)
                     (EE.eq (EE.bitwiseAnd qa cirrus_bit_mask) 0) in
  Ok (EE.updateMask img mask).

Definition mask_with_scl (img : Image N) : result (Image N) :=
  scl <- EE.select img "SCL" ;;
  let mask := EE.Or (EE.Or (EE.Or (EE.eq scl 4) (EE.eq scl 5)) (EE.eq scl 6))
                    (EE.eq scl 7) in
  Ok (EE.updateMask img mask).

Definition mask_s2_clouds (image : Image N) : result (Image Q) :=
  let has_qa60 := EE.contains (EE.bandNames image) "QA60" in
  masked_image <- EE.Algorithms_If has_qa60
                    (mask_with_qa image) (mask_with_scl image) ;;
  scaled <- EE.select (EE.divide masked_image 10000) "B.*" ;;
  Ok (EE.copyProperties scaled image ["system:time_start"%string]).

(** 4. NDVI. *)
Definition add_ndvi (image : Image Q) : result (Image Q) :=
  nd <- EE.normalizedDifference image ("B8"%string, "B4"%string) ;;
  let ndvi := EE.rename nd "NDVI" in
  Ok (EE.addBands image ndvi).

Definition s2_collection (archive : list (Image N)) : result (list (Image N)) :=
  get_sentinel2_collection archive aoi start_date end_date.

Definition s2_processed (archive : list (Image N)) : result (list (Image Q)) :=
  c <- s2_collection archive ;;
  masked <- mapM mask_s2_clouds c ;;
  indexed <- mapM add_ndvi masked ;;
  EE.ic_select indexed "NDVI".

(** 5. Monthly maximum value composites. *)
Definition months : list Z := [1; 2; 3; 4; 5; 6; 7; 8; 9; 10; 11; 12].

Definition month_window (month : Z) : result (Z * Z) :=
  d <- Date.parse start_date ;;
  let start := Date.advance_month d (month - 1) in
  let end_ := Date.advance_month start 1 in
  Ok (start, end_).

Definition create_monthly_mvc (s2_processed : list (Image Q)) (month : Z)
  : result (Image Q) :=
  w <- month_window month ;;
  let '(start, end_) := w in
  let monthly_collection := EE.filterDate s2_processed start end_ in
  mosaic <- EE.qualityMosaic monthly_collection "NDVI" ;;
  Ok (EE.set mosaic "system:time_start" start).

Definition monthly_mvc_collection (s2_processed : list (Image Q))
  : result (list (Image Q)) :=
  mapM (create_monthly_mvc s2_processed) months.

(** 6. Mean of all monthly composites, reprojected. *)
Definition mean_ndvi (monthly_mvc_collection : list (Image Q))
  : result (Image Q) :=
  selected <- EE.ic_select monthly_mvc_collection "NDVI" ;;
  Ok (EE.reproject (EE.ic_mean selected) "EPSG:4326" 10).

(** The whole computation, from the archive to the exported raster. *)
Definition main (archive : list (Image N)) : result (Image Q) :=
  processed <- s2_processed archive ;;
  monthly <- monthly_mvc_collection processed ;;
  mean_ndvi monthly.

(** ** Vocabulary of the statements *)

(** A literal selector picks the band of that name. *)
Definition literal (pattern : string) : Prop :=
  forall name, EE.pattern_matches pattern name = String.eqb pattern name.

(** Digital number to reflectance, as [divide(10000)] does it. *)
Definition reflectance (v : N) : Q := inject_Z (Z.of_N v) / inject_Z 10000.

(** What [mask_s2_clouds] does to the image a strategy has masked. *)
Definition scale_and_select (image : Image N) (masked : result (Image N))
  : result (Image Q) :=
  masked_image <- masked ;;
  scaled <- EE.select (EE.divide masked_image 10000) "B.*" ;;
  Ok (EE.copyProperties scaled image ["system:time_start"%string]).

(** Bits 10 and 11 of a QA value are both zero. *)
Definition clear_of_cloud (q : N) : bool :=
  negb (N.testbit q 10) && negb (N.testbit q 11).

(** The classes the classification strategy keeps. *)
Definition vegetation_class (c : N) : bool :=
  N.eqb c 4 || N.eqb c 5 || N.eqb c 6 || N.eqb c 7.

(** A sample is valid when it is not masked. *)
Definition valid {V : Type} (s : option V) : Prop := s <> None.

(** The valid samples of a list of samples. *)
Definition valid_values (l : list (option Q)) : list Q :=
  flat_map (fun s => match s with Some v => [v] | None => [] end) l.

Definition total (l : list Q) : Q := fold_right Qplus 0%Q l.

(** The arithmetic mean of a list of values; there is none of no value. *)
Definition arithmetic_mean (l : list Q) : option Q :=
  match l with
  | [] => None
  | _ => Some (total l / inject_Z (Z.of_nat (List.length l)))%Q
  end.

(** Two samples are the same: both nodata, or equal as rationals. *)
Definition same_sample (a b : option Q) : Prop :=
  match a, b with
  | Some x, Some y => (x == y)%Q
  | None, None => True
  | _, _ => False
  end.

(** Two images hold the same index raster. *)
Definition same_raster (a b : Image Q) : Prop :=
  forall p, same_sample (pixel_value a "NDVI" p) (pixel_value b "NDVI" p).

(** Two composites agree: same timestamp, the index band present in both or
    in neither, and the same index raster. *)
Definition same_composite (a b : Image Q) : Prop :=
  time_start a = time_start b
  /\ has_band a "NDVI" = has_band b "NDVI"
  /\ same_raster a b.

(** ** Sample data *)

Definition constant {V : Type} (v : V) : Raster V := fun _ => Some v.

Definition nodata {V : Type} : Raster V := fun _ => None.

Definition tile : Rectangle := mkRectangle 48 30 49 32.

(** 2024-03-01 and 2024-03-02, 00:00 UTC. *)
Definition march_1 : Z := 1709251200000.
Definition march_2 : Z := 1709337600000.

(** An image with the cloud bit (bit 10) set everywhere. *)
Definition cloudy_image : Image N :=
  mkImage [("B4"%string, constant 1000%N); ("B8"%string, constant 3000%N);
           ("QA60"%string, constant 1024%N); ("SCL"%string, constant 4%N)]
          (Some march_1) (Some tile) None.

(** An image without the QA band, classified as water (6) everywhere. *)
Definition water_image : Image N :=
  mkImage [("B4"%string, constant 1000%N); ("B8"%string, constant 3000%N);
           ("SCL"%string, constant 6%N)]
          (Some march_1) (Some tile) None.

(** The image an evaluation yields (an image without bands if it fails). *)
Definition the_image {V : Type} (c : result (Image V)) : Image V :=
  match c with
  | Ok img => img
  | Raise _ => mkImage [] None None None
  end.

(** The water image after cloud masking. *)
Definition masked_water_image : Image Q := the_image (mask_s2_clouds water_image).

(** The start of the [m]-th monthly window: the configured start date
    advanced by [m - 1] calendar months. *)
Definition start_of_month (m : Z) : result Z :=
  d <- Date.parse start_date ;;
  Ok (Date.advance_month d (m - 1)).

(** The timestamp of an image lies in the half-open interval from [s] to [e]. *)
Definition in_window {V : Type} (s e : Z) (i : Image V) : Prop :=
  exists t, time_start i = Some t /\ s <= t < e.

(** A processed image: the one band [NDVI]. *)
Definition ndvi_image (t : Z) (r : Raster Q) : Image Q :=
  mkImage [("NDVI"%string, r)] (Some t) (Some tile) None.

(** Scenario A: two March images with index 0.5 and 0.3. *)
Definition march_collection : list (Image Q) :=
  [ndvi_image march_1 (constant 0.5%Q); ndvi_image march_2 (constant 0.3%Q)].

(** The collection an evaluation yields (empty if it fails). *)
Definition the_collection {V : Type} (c : result (list (Image V)))
  : list (Image V) :=
  match c with
  | Ok l => l
  | Raise _ => []
  end.

(** An archive of two images of March 2024. *)
Definition march_archive : list (Image N) := [cloudy_image; water_image].

(** The configured date range in milliseconds: 2024-03-01 and 2024-10-31. *)
Definition start_millis : Z := 1709251200000.
Definition end_millis : Z := 1730332800000.

(** An image with neither the QA band nor the classification band. *)
Definition bare_image : Image N :=
  mkImage [("B4"%string, constant 1000%N); ("B8"%string, constant 3000%N)]
          (Some march_2) (Some tile) None.

Definition bare_archive : list (Image N) := [water_image; bare_image].

(** The March archive enumerated in the other order. *)
Definition march_archive_reversed : list (Image N) := [water_image; cloudy_image].

(** The starts of the thirteen months from 2024-03-01 to 2025-03-01, in
    milliseconds: consecutive entries bound the monthly windows. *)
Definition month_boundaries : list Z :=
  [1709251200000; 1711929600000; 1714521600000; 1717200000000;
   1719792000000; 1722470400000; 1725148800000; 1727740800000;
   1730419200000; 1733011200000; 1735689600000; 1738368000000;
   1740787200000].

Definition boundary (k : Z) : Z := nth (Z.to_nat k) month_boundaries 0.

(** The first image of the processed March archive. *)
Definition first_processed : Image Q :=
  hd (ndvi_image 0 nodata) (the_collection (s2_processed march_archive)).

(** Two clear images of spring 2024: 2024-03-01 with index 0.2 (NIR 0.3,
    red 0.2) and 2024-04-01 with index 0.8 (NIR 0.9, red 0.1). *)
Definition april_1 : Z := 1711929600000.

Definition spring_archive : list (Image N) :=
  [mkImage [("B4"%string, constant 2000%N); ("B8"%string, constant 3000%N);
            ("SCL"%string, constant 4%N)]
           (Some march_1) (Some tile) None;
   mkImage [("B4"%string, constant 1000%N); ("B8"%string, constant 9000%N);
            ("SCL"%string, constant 4%N)]
           (Some april_1) (Some tile) None].

(** * Properties *)

(** ** The error monad *)

Lemma bind_ok {A B : Type} (c : result A) (k : A -> result B) (b : B) :
  bind c k = Ok b -> exists a, c = Ok a /\ k a = Ok b.
Proof.
  destruct c as [a | e]; simpl; intros H; [eauto | discriminate].
Qed.

Section ErrorMonad.
Context {A B : Type}.

Lemma mapM_ok (f : A -> result B) (l : list A) (l' : list B) :
  mapM f l = Ok l' -> Forall2 (fun a b => f a = Ok b) l l'.
Proof.
  revert l'. induction l as [| a l IH]; simpl; intros l' H.
  - injection H as <-. constructor.
  - apply bind_ok in H as (b & Hb & H).
    destruct (mapM f l) as [bs | e]; simpl in H; [| discriminate].
    injection H as <-. constructor; auto.
Qed.

Lemma mapM_total (f : A -> result B) (l : list A) :
  Forall (fun a => exists b, f a = Ok b) l -> exists l', mapM f l = Ok l'.
Proof.
  induction 1 as [| a l (b & Hb) _ (bs & Hbs)]; simpl.
  - eauto.
  - rewrite Hb, Hbs. simpl. eauto.
Qed.

(** One failing element makes the whole mapped collection fail. *)
Lemma mapM_raise (f : A -> result B) (l : list A) (a : A) (e : EEException) :
  In a l -> f a = Raise e -> exists e', mapM f l = Raise e'.
Proof.
  induction l as [| x l IH]; simpl; [tauto |].
  intros [-> | Hin] Ha.
  - rewrite Ha. simpl. eauto.
  - destruct (f x) as [b | e0]; simpl; [| eauto].
    destruct (IH Hin Ha) as (e' & ->). simpl. eauto.
Qed.

(** When every failure of [f] is the same exception, that is the one
    reported. *)
Lemma mapM_raise_same (f : A -> result B) (l : list A) (a : A)
  (e : EEException) :
  (forall x e', f x = Raise e' -> e' = e) ->
  In a l -> f a = Raise e -> mapM f l = Raise e.
Proof.
  intros Hsame. induction l as [| x l IH]; simpl; [tauto |].
  intros [-> | Hin] Ha.
  - now rewrite Ha.
  - destruct (f x) as [b | e0] eqn:Hx; simpl.
    + now rewrite (IH Hin Ha).
    + now rewrite (Hsame _ _ Hx).
Qed.

End ErrorMonad.

(** ** Band lookup through the operators *)

Lemma find_pointwise {A : Type} (f g : A -> bool) (l : list A) :
  (forall a, f a = g a) -> find f l = find g l.
Proof.
  intros Hfg. induction l as [| a l IH]; simpl; [reflexivity |].
  now rewrite Hfg, IH.
Qed.

Lemma find_filter_head {A : Type} (f : A -> bool) (l : list A) (x : A)
  (r : list A) :
  filter f l = x :: r -> find f l = Some x.
Proof.
  induction l as [| a l IH]; simpl; [discriminate |].
  destruct (f a); [now intros [= -> _] | exact IH].
Qed.

Lemma find_filter_same {A : Type} (f g : A -> bool) (l : list A) :
  (forall a, f a = true -> g a = true) ->
  find f (filter g l) = find f l.
Proof.
  intros Hfg. induction l as [| a l IH]; simpl; [reflexivity |].
  destruct (g a) eqn:Hg; simpl.
  - destruct (f a); [reflexivity | exact IH].
  - destruct (f a) eqn:Hf; [| exact IH].
    rewrite (Hfg _ Hf) in Hg. discriminate.
Qed.

Lemma find_filter_none {A : Type} (f g : A -> bool) (l : list A) :
  (forall a, f a = true -> g a = false) ->
  find f (filter g l) = None.
Proof.
  intros Hfg. induction l as [| a l IH]; simpl; [reflexivity |].
  destruct (g a) eqn:Hg; simpl; [| exact IH].
  destruct (f a) eqn:Hf; [| exact IH].
  rewrite (Hfg _ Hf) in Hg. discriminate.
Qed.

Lemma lookup_band_map {V W : Type} (F : string * Raster V -> Raster W)
  (name : string) (bs : list (string * Raster V)) :
  lookup_band name (map (fun b => (fst b, F b)) bs)
  = option_map F (find (fun b => String.eqb name (fst b)) bs).
Proof.
  unfold lookup_band. induction bs as [| b bs IH]; simpl; [reflexivity |].
  destruct (String.eqb name (fst b)); [reflexivity | exact IH].
Qed.

Lemma has_band_contains {V : Type} (img : Image V) (name : string) :
  has_band img name = EE.contains (EE.bandNames img) name.
Proof.
  unfold has_band, EE.contains, EE.bandNames.
  induction (bands img) as [| b bs IH]; simpl; [reflexivity |].
  now rewrite IH.
Qed.

Lemma has_band_lookup {V : Type} (img : Image V) (name : string) :
  has_band img name = true <-> exists r, lookup_band name (bands img) = Some r.
Proof.
  unfold has_band, lookup_band.
  induction (bands img) as [| b bs IH]; simpl.
  - split; [discriminate | now intros (r & H)].
  - destruct (String.eqb name (fst b)); simpl; [| exact IH].
    split; eauto.
Qed.

Lemma lookup_band_name {V : Type} (name : string)
  (bs : list (string * Raster V)) (b : string * Raster V) :
  find (fun b => String.eqb name (fst b)) bs = Some b -> fst b = name.
Proof.
  intros H. apply find_some in H as (_ & H).
  symmetry. now apply String.eqb_eq.
Qed.

Lemma pixel_value_pointwise {V W : Type} (f : V -> W) (img : Image V)
  (name : string) (p : Pixel) :
  pixel_value (EE.pointwise f img) name p
  = option_map f (pixel_value img name p).
Proof.
  unfold pixel_value, EE.pointwise. simpl.
  rewrite (lookup_band_map (fun b q => option_map f (snd b q))).
  unfold lookup_band.
  now destruct (find _ (bands img)).
Qed.

Lemma pixel_value_updateMask {V : Type} (img : Image V) (mask : Image N)
  (name : string) (p : Pixel) :
  pixel_value (EE.updateMask img mask) name p
  = match first_raster mask p with
    | Some v => if N.eqb v 0 then None else pixel_value img name p
    | None => None
    end.
Proof.
  unfold pixel_value, EE.updateMask, with_bands. cbn [bands].
  rewrite (lookup_band_map
             (fun (b : string * Raster V) (q : Pixel) =>
                match first_raster mask q with
                | Some v => if N.eqb v 0 then @None V else snd b q
                | None => None
                end)).
  unfold lookup_band.
  destruct (find _ (bands img)); simpl; [reflexivity |].
  destruct (first_raster mask p) as [v |]; [now destruct (N.eqb v 0) | reflexivity].
Qed.

Lemma select_ok {V : Type} (img out : Image V) (pattern : string) :
  EE.select img pattern = Ok out ->
  out = with_bands img
          (filter (fun b => EE.pattern_matches pattern (fst b)) (bands img))
  /\ bands out <> [].
Proof.
  unfold EE.select.
  destruct (filter _ (bands img)) as [| b bs] eqn:Hf; [discriminate |].
  intros [= <-]. split; [reflexivity | discriminate].
Qed.

Lemma select_raise {V : Type} (img : Image V) (pattern : string)
  (e : EEException) :
  EE.select img pattern = Raise e -> e = BandNotMatched pattern.
Proof.
  unfold EE.select.
  destruct (filter _ (bands img)); [now intros [= <-] | discriminate].
Qed.

Lemma pixel_value_select {V : Type} (img out : Image V)
  (pattern name : string) (p : Pixel) :
  EE.select img pattern = Ok out ->
  pixel_value out name p
  = if EE.pattern_matches pattern name then pixel_value img name p else None.
Proof.
  intros H. apply select_ok in H as (-> & _).
  unfold pixel_value, lookup_band, with_bands. simpl.
  destruct (EE.pattern_matches pattern name) eqn:Hm.
  - rewrite find_filter_same; [reflexivity |].
    intros b Hb. apply String.eqb_eq in Hb. now rewrite <- Hb.
  - rewrite find_filter_none; [reflexivity |].
    intros b Hb. apply String.eqb_eq in Hb. now rewrite <- Hb.
Qed.

Lemma first_raster_select {V : Type} (img out : Image V) (pattern : string)
  (p : Pixel) :
  literal pattern ->
  EE.select img pattern = Ok out ->
  first_raster out p = pixel_value img pattern p.
Proof.
  intros Hlit H. apply select_ok in H as (-> & Hne).
  unfold first_raster, pixel_value, lookup_band, with_bands in *. simpl in *.
  destruct (filter _ (bands img)) as [| [n r] bs] eqn:Hf; [congruence |].
  apply find_filter_head in Hf.
  rewrite (find_pointwise _ (fun b => EE.pattern_matches pattern (fst b)))
    by (intros b; now rewrite Hlit).
  now rewrite Hf.
Qed.

Lemma select_literal_total {V : Type} (img : Image V) (pattern : string) :
  literal pattern -> has_band img pattern = true ->
  exists out, EE.select img pattern = Ok out.
Proof.
  intros Hlit H. unfold EE.select, has_band in *.
  apply existsb_exists in H as (b & Hin & Hb).
  destruct (filter _ (bands img)) as [| b' bs] eqn:Hf; [| eauto].
  assert (Hb' : In b (filter (fun b => EE.pattern_matches pattern (fst b))
                         (bands img)))
    by (apply filter_In; split; [assumption | now rewrite Hlit]).
  rewrite Hf in Hb'. destruct Hb'.
Qed.

Lemma select_literal_missing {V : Type} (img : Image V) (pattern : string) :
  literal pattern -> has_band img pattern = false ->
  EE.select img pattern = Raise (BandNotMatched pattern).
Proof.
  intros Hlit H. unfold EE.select, has_band in *.
  destruct (filter _ (bands img)) as [| b bs] eqn:Hf; [reflexivity |].
  assert (Hb : In b (filter (fun b => EE.pattern_matches pattern (fst b))
                        (bands img))) by (rewrite Hf; now left).
  apply filter_In in Hb as (Hin & Hb). rewrite Hlit in Hb.
  assert (existsb (fun b => String.eqb pattern (fst b)) (bands img) = true)
    by (apply existsb_exists; eauto).
  congruence.
Qed.

Lemma literal_QA60 : literal "QA60".
Proof. intros name. reflexivity. Qed.

Lemma literal_SCL : literal "SCL".
Proof. intros name. reflexivity. Qed.

Lemma literal_NDVI : literal "NDVI".
Proof. intros name. reflexivity. Qed.

Lemma literal_B8 : literal "B8".
Proof. intros name. reflexivity. Qed.

Lemma literal_B4 : literal "B4".
Proof. intros name. reflexivity. Qed.

Lemma first_raster_pointwise {V W : Type} (f : V -> W) (img : Image V)
  (p : Pixel) :
  first_raster (EE.pointwise f img) p = option_map f (first_raster img p).
Proof.
  unfold first_raster, EE.pointwise. simpl.
  destruct (bands img) as [| [n r] bs]; reflexivity.
Qed.

Lemma first_raster_pointwise2 {V W X : Type} (f : V -> W -> X)
  (a : Image V) (b : Image W) (p : Pixel) :
  first_raster (EE.pointwise2 f a b) p
  = match first_raster a p, first_raster b p with
    | Some x, Some y => Some (f x y)
    | _, _ => None
    end.
Proof.
  unfold first_raster at 1 2, EE.pointwise2. simpl.
  destruct (bands a) as [| [n r] bs]; reflexivity.
Qed.

Lemma bands_copyProperties {V W : Type} (dst : Image V) (src : Image W)
  (properties : list string) :
  bands (EE.copyProperties dst src properties) = bands dst.
Proof.
  unfold EE.copyProperties.
  destruct (EE.contains properties _); [| reflexivity].
  now destruct (time_start src).
Qed.

Lemma pixel_value_bands {V : Type} (a b : Image V) (name : string) (p : Pixel) :
  bands a = bands b -> pixel_value a name p = pixel_value b name p.
Proof. unfold pixel_value. now intros ->. Qed.

Lemma bandNames_map {V W : Type} (F : string * Raster V -> Raster W)
  (bs : list (string * Raster V)) :
  map fst (map (fun b => (fst b, F b)) bs) = map fst bs.
Proof. rewrite map_map. reflexivity. Qed.

Lemma bandNames_pointwise {V W : Type} (f : V -> W) (img : Image V) :
  EE.bandNames (EE.pointwise f img) = EE.bandNames img.
Proof.
  unfold EE.bandNames, EE.pointwise. cbn [bands].
  apply (bandNames_map (fun b q => option_map f (snd b q))).
Qed.

Lemma bandNames_updateMask {V : Type} (img : Image V) (mask : Image N) :
  EE.bandNames (EE.updateMask img mask) = EE.bandNames img.
Proof.
  unfold EE.bandNames, EE.updateMask, with_bands. cbn [bands].
  rewrite map_map. reflexivity.
Qed.

Lemma contains_In (l : list string) (s : string) :
  EE.contains l s = true <-> In s l.
Proof.
  unfold EE.contains. rewrite existsb_exists. split.
  - intros (x & Hin & Hx). apply String.eqb_eq in Hx. now subst.
  - intros Hin. exists s. split; [assumption | apply String.eqb_refl].
Qed.

Lemma select_total {V : Type} (img : Image V) (pattern name : string) :
  In name (EE.bandNames img) -> EE.pattern_matches pattern name = true ->
  exists out, EE.select img pattern = Ok out.
Proof.
  unfold EE.bandNames, EE.select. intros Hin Hm.
  apply in_map_iff in Hin as (b & <- & Hb).
  destruct (filter _ (bands img)) as [| b' bs] eqn:Hf; [| eauto].
  assert (H : In b (filter (fun b => EE.pattern_matches pattern (fst b))
                       (bands img))) by (apply filter_In; auto).
  rewrite Hf in H. destruct H.
Qed.

(** ** Cloud masking *)

Lemma pixel_value_divide (img : Image N) (name : string) (p : Pixel) :
  pixel_value (EE.divide img 10000) name p
  = option_map reflectance (pixel_value img name p).
Proof. unfold EE.divide. now rewrite pixel_value_pointwise. Qed.

Lemma land_bit_clear (q n : N) :
  N.land q (N.shiftl 1 n) = 0%N <-> N.testbit q n = false.
Proof.
  rewrite N.shiftl_1_l. split; intros H.
  - assert (Hb : N.testbit (N.land q (2 ^ n)) n = false)
      by (rewrite H; apply N.bits_0).
    rewrite N.land_spec, N.pow2_bits_true, andb_true_r in Hb. exact Hb.
  - apply N.bits_inj. intros m.
    rewrite N.land_spec, N.bits_0, N.pow2_bits_eqb.
    destruct (N.eqb_spec n m) as [<- | _].
    + now rewrite H.
    + apply andb_false_r.
Qed.

Lemma qa_mask_raster (qa : Image N) (p : Pixel) :
  first_raster
    (EE.And (EE.eq (EE.bitwiseAnd qa cloud_bit_mask) 0)
            (EE.eq (EE.bitwiseAnd qa cirrus_bit_mask) 0)) p
  = option_map (fun q => if clear_of_cloud q then 1%N else 0%N)
               (first_raster qa p).
Proof.
  unfold EE.And, EE.eq, EE.bitwiseAnd.
  rewrite first_raster_pointwise2, !first_raster_pointwise.
  destruct (first_raster qa p) as [q |]; simpl; [| reflexivity].
  unfold clear_of_cloud, cloud_bit_mask, cirrus_bit_mask.
  pose proof (land_bit_clear q 10) as H10.
  pose proof (land_bit_clear q 11) as H11.
  destruct (N.eqb_spec (N.land q (N.shiftl 1 10)) 0) as [E10 | E10];
    destruct (N.eqb_spec (N.land q (N.shiftl 1 11)) 0) as [E11 | E11];
    destruct (N.testbit q 10); destruct (N.testbit q 11);
    try reflexivity; intuition congruence.
Qed.

Lemma scl_mask_raster (scl : Image N) (p : Pixel) :
  first_raster
    (EE.Or (EE.Or (EE.Or (EE.eq scl 4) (EE.eq scl 5)) (EE.eq scl 6))
           (EE.eq scl 7)) p
  = option_map (fun c => if vegetation_class c then 1%N else 0%N)
               (first_raster scl p).
Proof.
  unfold EE.Or, EE.eq.
  rewrite !first_raster_pointwise2, !first_raster_pointwise.
  destruct (first_raster scl p) as [c |]; simpl; [| reflexivity].
  unfold vegetation_class.
  destruct (N.eqb c 4), (N.eqb c 5), (N.eqb c 6), (N.eqb c 7); reflexivity.
Qed.

Lemma mask_with_qa_pixel (image masked : Image N) (name : string) (p : Pixel) :
  mask_with_qa image = Ok masked ->
  pixel_value masked name p
  = match pixel_value image "QA60" p with
    | Some q => if clear_of_cloud q then pixel_value image name p else None
    | None => None
    end.
Proof.
  unfold mask_with_qa. intros H.
  apply bind_ok in H as (qa & Hqa & [= <-]).
  rewrite pixel_value_updateMask, qa_mask_raster.
  rewrite (first_raster_select _ _ _ _ literal_QA60 Hqa).
  destruct (pixel_value image "QA60" p) as [q |]; simpl; [| reflexivity].
  now destruct (clear_of_cloud q).
Qed.

Lemma mask_with_scl_pixel (image masked : Image N) (name : string) (p : Pixel) :
  mask_with_scl image = Ok masked ->
  pixel_value masked name p
  = match pixel_value image "SCL" p with
    | Some c => if vegetation_class c then pixel_value image name p else None
    | None => None
    end.
Proof.
  unfold mask_with_scl. intros H.
  apply bind_ok in H as (scl & Hscl & [= <-]).
  rewrite pixel_value_updateMask, scl_mask_raster.
  rewrite (first_raster_select _ _ _ _ literal_SCL Hscl).
  destruct (pixel_value image "SCL" p) as [c |]; simpl; [| reflexivity].
  now destruct (vegetation_class c).
Qed.

Lemma mask_with_qa_names (image masked : Image N) :
  mask_with_qa image = Ok masked -> EE.bandNames masked = EE.bandNames image.
Proof.
  unfold mask_with_qa. intros H.
  apply bind_ok in H as (qa & _ & [= <-]). apply bandNames_updateMask.
Qed.

Lemma mask_with_scl_names (image masked : Image N) :
  mask_with_scl image = Ok masked -> EE.bandNames masked = EE.bandNames image.
Proof.
  unfold mask_with_scl. intros H.
  apply bind_ok in H as (scl & _ & [= <-]). apply bandNames_updateMask.
Qed.

Lemma scale_and_select_pixel (image masked : Image N) (out : Image Q)
  (name : string) (p : Pixel) :
  scale_and_select image (Ok masked) = Ok out ->
  pixel_value out name p
  = if EE.pattern_matches "B.*" name
    then option_map reflectance (pixel_value masked name p)
    else None.
Proof.
  unfold scale_and_select. cbn [bind]. intros H.
  apply bind_ok in H as (scaled & Hs & [= <-]).
  rewrite (pixel_value_bands _ scaled) by apply bands_copyProperties.
  rewrite (pixel_value_select _ _ _ _ _ Hs).
  now rewrite pixel_value_divide.
Qed.

Lemma scale_and_select_total (image masked : Image N) (name : string) :
  In name (EE.bandNames masked) -> EE.pattern_matches "B.*" name = true ->
  exists out, scale_and_select image (Ok masked) = Ok out.
Proof.
  intros Hin Hm. unfold scale_and_select. cbn [bind].
  destruct (select_total (EE.divide masked 10000) "B.*" name) as (s & ->);
    [unfold EE.divide; now rewrite bandNames_pointwise | assumption |].
  cbn [bind]. eauto.
Qed.

Lemma mask_s2_clouds_with_qa (image : Image N) :
  EE.contains (EE.bandNames image) "QA60" = true ->
  mask_s2_clouds image = scale_and_select image (mask_with_qa image).
Proof. unfold mask_s2_clouds, scale_and_select. now intros ->. Qed.

Lemma mask_s2_clouds_with_scl (image : Image N) :
  EE.contains (EE.bandNames image) "QA60" = false ->
  mask_s2_clouds image = scale_and_select image (mask_with_scl image).
Proof. unfold mask_s2_clouds, scale_and_select. now intros ->. Qed.


Lemma clear_of_cloud_bits (q : N) :
  clear_of_cloud q = true <-> N.testbit q 10 = false /\ N.testbit q 11 = false.
Proof.
  unfold clear_of_cloud.
  destruct (N.testbit q 10), (N.testbit q 11); simpl; intuition congruence.
Qed.

Lemma vegetation_class_set (c : N) :
  vegetation_class c = true <-> In c [4; 5; 6; 7]%N.
Proof.
  unfold vegetation_class. simpl.
  destruct (N.eqb_spec c 4), (N.eqb_spec c 5), (N.eqb_spec c 6),
    (N.eqb_spec c 7); simpl; split; intros H; try discriminate; try lia; auto.
Qed.

(** C6.  Under the bitmask strategy (the image has a [QA60] band), masking
    succeeds and, at a pixel whose QA value is [q], an optical band [b] keeps
    its input sample, scaled to reflectance, when bits 10 (cloud) and 11
    (cirrus) of [q] are both zero, and is nodata when either is set; so a
    pixel valid in the input is valid in the output if and only if both bits
    are zero, whatever the image holds in its classification band. *)
Theorem bitmask_valid_iff_cloud_bits_clear (image : Image N) (b : string) :
  EE.contains (EE.bandNames image) "QA60" = true ->
  In b (EE.bandNames image) ->
  EE.pattern_matches "B.*" b = true ->
  exists out,
    mask_s2_clouds image = Ok out /\
    forall p q,
      pixel_value image "QA60" p = Some q ->
      (N.testbit q 10 = false /\ N.testbit q 11 = false ->
       pixel_value out b p = option_map reflectance (pixel_value image b p))
      /\ (N.testbit q 10 = true \/ N.testbit q 11 = true ->
          pixel_value out b p = None)
      /\ (valid (pixel_value image b p) ->
          (valid (pixel_value out b p)
           <-> N.testbit q 10 = false /\ N.testbit q 11 = false)).
Proof.
  intros Hqa Hb Hm.
  rewrite (mask_s2_clouds_with_qa image Hqa).
  destruct (select_literal_total image "QA60" literal_QA60) as (qa & Hsel);
    [now rewrite has_band_contains |].
  assert (Hmasked : exists masked, mask_with_qa image = Ok masked)
    by (unfold mask_with_qa; rewrite Hsel; cbn [bind]; eauto).
  destruct Hmasked as (masked & Hmasked). rewrite Hmasked.
  destruct (scale_and_select_total image masked b) as (out & Hout);
    [now rewrite (mask_with_qa_names _ _ Hmasked) | assumption |].
  exists out. split; [assumption |]. intros p q Hq.
  assert (Hpix : pixel_value out b p
                 = if clear_of_cloud q
                   then option_map reflectance (pixel_value image b p)
                   else None).
  { rewrite (scale_and_select_pixel _ _ _ _ _ Hout), Hm.
    rewrite (mask_with_qa_pixel _ _ _ _ Hmasked), Hq.
    now destruct (clear_of_cloud q). }
  pose proof (clear_of_cloud_bits q) as Hbits.
  destruct (clear_of_cloud q).
  - assert (Hclear : N.testbit q 10 = false /\ N.testbit q 11 = false)
      by now apply Hbits.
    split; [auto |]. split; [intros [H | H]; destruct Hclear; congruence |].
    intros Hv. split; [auto |]. intros _. rewrite Hpix. unfold valid in *.
    destruct (pixel_value image b p); [discriminate | congruence].
  - assert (Hset : ~ (N.testbit q 10 = false /\ N.testbit q 11 = false))
      by (intros H; apply Hbits in H; discriminate).
    split; [tauto |]. split; [auto |].
    intros _. unfold valid. rewrite Hpix. tauto.
Qed.

(** C7.  Under the classification strategy (the image has no [QA60] band but
    has [SCL]), masking succeeds and, at a pixel whose class is [c], an
    optical band [b] keeps its input sample, scaled to reflectance, when [c]
    is one of 4, 5, 6, 7 and is nodata otherwise; so a pixel valid in the
    input is valid in the output if and only if its class is in that set. *)
Theorem classification_valid_iff_class_in_4_7 (image : Image N) (b : string) :
  EE.contains (EE.bandNames image) "QA60" = false ->
  EE.contains (EE.bandNames image) "SCL" = true ->
  In b (EE.bandNames image) ->
  EE.pattern_matches "B.*" b = true ->
  exists out,
    mask_s2_clouds image = Ok out /\
    forall p c,
      pixel_value image "SCL" p = Some c ->
      (In c [4; 5; 6; 7]%N ->
       pixel_value out b p = option_map reflectance (pixel_value image b p))
      /\ (~ In c [4; 5; 6; 7]%N -> pixel_value out b p = None)
      /\ (valid (pixel_value image b p) ->
          (valid (pixel_value out b p) <-> In c [4; 5; 6; 7]%N)).
Proof.
  intros Hqa Hscl Hb Hm.
  rewrite (mask_s2_clouds_with_scl image Hqa).
  destruct (select_literal_total image "SCL" literal_SCL) as (scl & Hsel);
    [now rewrite has_band_contains |].
  assert (Hmasked : exists masked, mask_with_scl image = Ok masked)
    by (unfold mask_with_scl; rewrite Hsel; cbn [bind]; eauto).
  destruct Hmasked as (masked & Hmasked). rewrite Hmasked.
  destruct (scale_and_select_total image masked b) as (out & Hout);
    [now rewrite (mask_with_scl_names _ _ Hmasked) | assumption |].
  exists out. split; [assumption |]. intros p c Hc.
  assert (Hpix : pixel_value out b p
                 = if vegetation_class c
                   then option_map reflectance (pixel_value image b p)
                   else None).
  { rewrite (scale_and_select_pixel _ _ _ _ _ Hout), Hm.
    rewrite (mask_with_scl_pixel _ _ _ _ Hmasked), Hc.
    now destruct (vegetation_class c). }
  pose proof (vegetation_class_set c) as Hset.
  destruct (vegetation_class c).
  - assert (Hin : In c [4; 5; 6; 7]%N) by now apply Hset.
    split; [auto |]. split; [tauto |].
    intros Hv. split; [auto |]. intros _. rewrite Hpix. unfold valid in *.
    destruct (pixel_value image b p); [discriminate | congruence].
  - assert (Hout' : ~ In c [4; 5; 6; 7]%N)
      by (intros H; apply Hset in H; discriminate).
    split; [tauto |]. split; [auto |].
    intros _. unfold valid. rewrite Hpix. tauto.
Qed.

(** Scenario C: the cloud bit set at a pixel makes it nodata in the masked
    output, although the classification band says vegetation (4). *)
Lemma cloud_bit_set_is_nodata :
  exists out,
    mask_s2_clouds cloudy_image = Ok out
    /\ pixel_value out "B4" (0, 0) = None.
Proof.
  destruct (bitmask_valid_iff_cloud_bits_clear cloudy_image "B4")
    as (out & Hout & Hp); [reflexivity | simpl; auto | reflexivity |].
  exists out. split; [exact Hout |].
  destruct (Hp (0, 0) 1024%N eq_refl) as (_ & Hset & _).
  apply Hset. left. reflexivity.
Defined.

(** Scenario D: without the QA band the classification strategy applies, and
    a pixel of class 6 stays valid. *)
Lemma class_6_without_qa_is_valid :
  exists out,
    mask_s2_clouds water_image = Ok out
    /\ pixel_value out "B4" (0, 0) = Some (reflectance 1000).
Proof.
  destruct (classification_valid_iff_class_in_4_7 water_image "B4")
    as (out & Hout & Hp);
    [reflexivity | reflexivity | simpl; auto | reflexivity |].
  exists out. split; [exact Hout |].
  destruct (Hp (0, 0) 6%N eq_refl) as (Hkeep & _).
  apply Hkeep. simpl. auto.
Defined.

(** ** NDVI *)

Lemma lookup_band_app {V : Type} (name : string)
  (l1 l2 : list (string * Raster V)) :
  lookup_band name (l1 ++ l2)
  = match lookup_band name l1 with
    | Some r => Some r
    | None => lookup_band name l2
    end.
Proof.
  unfold lookup_band. induction l1 as [| b l1 IH]; simpl; [reflexivity |].
  destruct (String.eqb name (fst b)); [reflexivity | exact IH].
Qed.

Lemma lookup_band_absent {V : Type} (img : Image V) (name : string) :
  EE.contains (EE.bandNames img) name = false ->
  lookup_band name (bands img) = None.
Proof.
  rewrite <- has_band_contains. intros H.
  destruct (lookup_band name (bands img)) as [r |] eqn:E; [| reflexivity].
  assert (has_band img name = true) by (apply has_band_lookup; eauto).
  congruence.
Qed.

Lemma mask_s2_clouds_ok (image : Image N) (out : Image Q) :
  mask_s2_clouds image = Ok out ->
  exists masked,
    (mask_with_qa image = Ok masked \/ mask_with_scl image = Ok masked)
    /\ scale_and_select image (Ok masked) = Ok out.
Proof.
  intros H.
  destruct (EE.contains (EE.bandNames image) "QA60") eqn:E.
  - rewrite (mask_s2_clouds_with_qa _ E) in H.
    destruct (mask_with_qa image) as [masked | e]; [eauto | discriminate].
  - rewrite (mask_s2_clouds_with_scl _ E) in H.
    destruct (mask_with_scl image) as [masked | e]; [eauto | discriminate].
Qed.

Lemma reflectance_nonneg (v : N) : (0 <= reflectance v)%Q.
Proof.
  unfold reflectance, Qle, Qdiv. simpl. lia.
Qed.

(** Reflectances of a masked image are never negative. *)
Lemma mask_s2_clouds_nonneg (image : Image N) (out : Image Q) (name : string)
  (p : Pixel) (v : Q) :
  mask_s2_clouds image = Ok out ->
  pixel_value out name p = Some v -> (0 <= v)%Q.
Proof.
  intros H Hv. apply mask_s2_clouds_ok in H as (masked & _ & H).
  rewrite (scale_and_select_pixel _ _ _ _ _ H) in Hv.
  destruct (EE.pattern_matches "B.*" name); [| discriminate].
  destruct (pixel_value masked name p) as [d |]; [| discriminate].
  injection Hv as <-. apply reflectance_nonneg.
Qed.

(** A masked image holds optical bands only. *)
Lemma mask_s2_clouds_names (image : Image N) (out : Image Q) (name : string) :
  mask_s2_clouds image = Ok out ->
  In name (EE.bandNames out) -> EE.pattern_matches "B.*" name = true.
Proof.
  intros H Hin. apply mask_s2_clouds_ok in H as (masked & _ & H).
  unfold scale_and_select in H. cbn [bind] in H.
  apply bind_ok in H as (scaled & Hs & [= <-]).
  unfold EE.bandNames in Hin. rewrite bands_copyProperties in Hin.
  apply select_ok in Hs as (-> & _). cbn [bands with_bands] in Hin.
  apply in_map_iff in Hin as (b & <- & Hb).
  now apply filter_In in Hb as (_ & Hb).
Qed.

Lemma add_ndvi_pixel (image out : Image Q) (p : Pixel) :
  add_ndvi image = Ok out ->
  EE.contains (EE.bandNames image) "NDVI" = false ->
  pixel_value out "NDVI" p
  = match pixel_value image "B8" p, pixel_value image "B4" p with
    | Some x, Some y => EE.normalized x y
    | _, _ => None
    end.
Proof.
  unfold add_ndvi, EE.normalizedDifference. intros H Hfresh.
  apply bind_ok in H as (nd & H & [= <-]).
  apply bind_ok in H as (first & Hfirst & H).
  apply bind_ok in H as (second & Hsecond & [= <-]).
  cbn [fst snd] in *.
  unfold pixel_value at 1, EE.addBands, EE.rename, with_bands.
  cbn [bands map fst snd]. rewrite Hfresh.
  rewrite lookup_band_app, (lookup_band_absent _ _ Hfresh).
  cbn -[first_raster].
  rewrite (first_raster_select _ _ _ _ literal_B8 Hfirst).
  rewrite (first_raster_select _ _ _ _ literal_B4 Hsecond).
  reflexivity.
Qed.

Lemma add_ndvi_total (image : Image Q) :
  In "B8"%string (EE.bandNames image) -> In "B4"%string (EE.bandNames image) ->
  exists out, add_ndvi image = Ok out.
Proof.
  intros H8 H4. unfold add_ndvi, EE.normalizedDifference. cbn [fst snd].
  destruct (select_total image "B8" "B8" H8 eq_refl) as (first & ->).
  destruct (select_total image "B4" "B4" H4 eq_refl) as (second & ->).
  cbn [bind]. eauto.
Qed.

Lemma masked_has_no_ndvi (image : Image N) (masked : Image Q) :
  mask_s2_clouds image = Ok masked ->
  EE.contains (EE.bandNames masked) "NDVI" = false.
Proof.
  intros H.
  destruct (EE.contains (EE.bandNames masked) "NDVI") eqn:E; [| reflexivity].
  apply contains_In in E. apply (mask_s2_clouds_names _ _ _ H) in E.
  discriminate.
Qed.

(** C5.  For every image that comes out of the cloud masking (with its NIR
    band [B8] and red band [B4]), [add_ndvi] succeeds and, at every pixel,
    the band [NDVI] is [(NIR - Red) / (NIR + Red)] where both inputs are valid
    and their sum is not zero, and is nodata where the sum is zero or an
    input is nodata. *)
Theorem ndvi_is_normalized_difference (image : Image N) (masked : Image Q) :
  mask_s2_clouds image = Ok masked ->
  In "B8"%string (EE.bandNames masked) ->
  In "B4"%string (EE.bandNames masked) ->
  exists out,
    add_ndvi masked = Ok out /\
    forall p,
      (forall nir red,
          pixel_value masked "B8" p = Some nir ->
          pixel_value masked "B4" p = Some red ->
          (~ (nir + red == 0)%Q ->
           pixel_value out "NDVI" p = Some ((nir - red) / (nir + red))%Q)
          /\ ((nir + red == 0)%Q -> pixel_value out "NDVI" p = None))
      /\ (pixel_value masked "B8" p = None \/ pixel_value masked "B4" p = None ->
          pixel_value out "NDVI" p = None).
Proof.
  intros Hmask H8 H4.
  destruct (add_ndvi_total masked H8 H4) as (out & Hout).
  exists out. split; [assumption |]. intros p.
  rewrite (add_ndvi_pixel _ _ p Hout (masked_has_no_ndvi _ _ Hmask)).
  split.
  - intros nir red Hnir Hred. rewrite Hnir, Hred. unfold EE.normalized.
    apply (mask_s2_clouds_nonneg _ _ _ _ _ Hmask) in Hnir, Hred.
    apply Qle_bool_iff in Hnir, Hred. rewrite Hnir, Hred. cbn [andb].
    destruct (Qeq_bool (nir + red) 0) eqn:E.
    + apply Qeq_bool_iff in E. tauto.
    + apply Qeq_bool_neq in E. tauto.
  - intros [-> | ->]; [reflexivity |].
    now destruct (pixel_value masked "B8" p).
Qed.

(** NIR 0.3 and red 0.1 give the index (0.3 - 0.1) / (0.3 + 0.1). *)
Lemma ndvi_of_water_image :
  exists out,
    add_ndvi masked_water_image = Ok out
    /\ pixel_value out "NDVI" (0, 0)
       = Some ((reflectance 3000 - reflectance 1000)
               / (reflectance 3000 + reflectance 1000))%Q.
Proof.
  destruct (ndvi_is_normalized_difference water_image masked_water_image)
    as (out & Hout & Hp); [reflexivity | simpl; auto | simpl; auto |].
  exists out. split; [exact Hout |].
  destruct (Hp (0, 0)) as (Hval & _).
  destruct (Hval (reflectance 3000) (reflectance 1000) eq_refl eq_refl)
    as (Hnz & _).
  apply Hnz. intros H. discriminate H.
Defined.

(** ** Monthly windows *)

Lemma month_cases (m : Z) :
  1 <= m <= 12 ->
  In m months.
Proof. intros H. unfold months. simpl. lia. Qed.

(** The twelve windows tile the year that begins at the start date: the
    window of month [m] ends where that of month [m + 1] begins. *)
Lemma month_window_tiles (m : Z) :
  1 <= m <= 12 ->
  exists s e,
    month_window m = Ok (s, e)
    /\ start_of_month m = Ok s /\ start_of_month (m + 1) = Ok e /\ s < e.
Proof.
  intros H. apply month_cases in H. unfold months in H.
  repeat (destruct H as [<- | H];
          [do 2 eexists; repeat split; vm_compute; reflexivity |]).
  destruct H.
Qed.

Lemma in_range_window {V : Type} (s e : Z) (i : Image V) :
  EE.in_range s e i = true <-> in_window s e i.
Proof.
  unfold EE.in_range, in_window. destruct (time_start i) as [t |].
  - rewrite andb_true_iff, Z.leb_le, Z.ltb_lt. split.
    + intros H. exists t. auto.
    + intros (t' & [= <-] & H). exact H.
  - split; [discriminate | intros (t & H & _); discriminate].
Qed.

Lemma filterDate_In {V : Type} (c : list (Image V)) (s e : Z) (i : Image V) :
  In i (EE.filterDate c s e) <-> In i c /\ in_window s e i.
Proof.
  unfold EE.filterDate. rewrite filter_In. now rewrite in_range_window.
Qed.

(** ** The quality mosaic *)

Section Winner.

Variable quality : string.
Variable p : Pixel.

Let q (i : Image Q) : option Q := pixel_value i quality p.

Lemma better_valid (best : option (Image Q)) (a : Image Q) :
  (forall b, best = Some b -> exists v, q b = Some v) ->
  forall b, EE.better quality p best a = Some b -> exists v, q b = Some v.
Proof.
  intros Hbest b. unfold EE.better. fold (q a).
  destruct (q a) as [v |] eqn:Ha; [| apply Hbest].
  destruct best as [b0 |]; [| intros [= <-]; eauto].
  fold (q b0). destruct (q b0) as [w |] eqn:Hb0; [| intros [= <-]; eauto].
  destruct (Qle_bool v w); [apply Hbest | intros [= <-]; eauto].
Qed.

Lemma winner_from (l : list (Image Q)) (best : option (Image Q)) :
  (forall b, best = Some b -> exists v, q b = Some v) ->
  match fold_left (EE.better quality p) l best with
  | Some w =>
      (best = Some w \/ In w l)
      /\ exists v, q w = Some v
                   /\ (forall i u, In i l -> q i = Some u -> (u <= v)%Q)
                   /\ (forall b u, best = Some b -> q b = Some u -> (u <= v)%Q)
  | None => best = None /\ forall i, In i l -> q i = None
  end.
Proof.
  revert best. induction l as [| a l IH]; intros best Hbest; cbn [fold_left].
  - destruct best as [b |]; [| split; [reflexivity | intros i []]].
    destruct (Hbest b eq_refl) as (v & Hv).
    split; [now left |]. exists v. split; [assumption |]. split.
    + intros i u [].
    + intros b' u [= <-] Hu. rewrite Hv in Hu. injection Hu as <-.
      apply Qle_refl.
  - specialize (IH _ (better_valid best a Hbest)).
    destruct (fold_left _ l _) as [w |].
    + destruct IH as (Hw & v & Hv & Hl & Hb).
      assert (Hq : forall u, q a = Some u -> (u <= v)%Q /\
                   (forall b u', best = Some b -> q b = Some u' -> (u' <= v)%Q)).
      { intros u Ha. unfold EE.better in Hb. fold (q a) in Hb.
        rewrite Ha in Hb. destruct best as [b0 |].
        - fold (q b0) in Hb. destruct (Hbest b0 eq_refl) as (w0 & Hw0).
          rewrite Hw0 in Hb. destruct (Qle_bool u w0) eqn:E.
          + apply Qle_bool_iff in E. split.
            * apply Qle_trans with w0; [assumption | now apply (Hb b0)].
            * intros b u' [= <-] Hu'. now apply (Hb b0).
          + assert (Hlt : (w0 < u)%Q).
            { apply Qnot_le_lt. intros Hle. apply Qle_bool_iff in Hle.
              congruence. }
            split; [now apply (Hb a) |].
            intros b u' [= <-] Hu'. rewrite Hw0 in Hu'. injection Hu' as <-.
            apply Qle_trans with u; [now apply Qlt_le_weak | now apply (Hb a)].
        - split; [now apply (Hb a) | discriminate]. }
      split.
      * destruct Hw as [Hw | Hw]; [| right; now right].
        unfold EE.better in Hw. fold (q a) in Hw.
        destruct (q a) as [u |]; [| now left].
        destruct best as [b0 |]; [| injection Hw as <-; right; now left].
        fold (q b0) in Hw. destruct (q b0) as [w0 |];
          [| injection Hw as <-; right; now left].
        destruct (Qle_bool u w0); [now left |].
        injection Hw as <-. right. now left.
      * exists v. split; [assumption |]. split.
        -- intros i u [<- | Hi] Hu; [now apply Hq | now apply (Hl i)].
        -- intros b u Hbb Hu. destruct (q a) as [ua |] eqn:Ha.
           ++ destruct (Hq ua eq_refl) as (_ & Hq'). now apply (Hq' b).
           ++ apply (Hb b); [| assumption].
              unfold EE.better. fold (q a). now rewrite Ha.
    + destruct IH as (Hnone & Hl).
      unfold EE.better in Hnone. fold (q a) in Hnone.
      destruct (q a) as [u |] eqn:Ha.
      * destruct best as [b0 |]; [| discriminate].
        fold (q b0) in Hnone. destruct (q b0); [| discriminate].
        destruct (Qle_bool u q0); discriminate.
      * split; [assumption |]. intros i [<- | Hi]; [assumption | now apply Hl].
Qed.

(** The winner at a pixel holds a greatest valid quality value of the
    collection; there is none only if no image is valid there. *)
Lemma winner_greatest (l : list (Image Q)) :
  match EE.winner quality p l with
  | Some w =>
      In w l /\ exists v, q w = Some v
                          /\ forall i u, In i l -> q i = Some u -> (u <= v)%Q
  | None => forall i, In i l -> q i = None
  end.
Proof.
  unfold EE.winner.
  assert (H := winner_from l None ltac:(discriminate)).
  destruct (fold_left _ l None) as [w |].
  - destruct H as ([Hw | Hw] & v & Hv & Hl & _); [discriminate |]. eauto.
  - now destruct H as (_ & H).
Qed.

End Winner.

Lemma qualityMosaic_total (c : list (Image Q)) (quality : string) :
  Forall (fun i => has_band i quality = true) c ->
  exists comp, EE.qualityMosaic c quality = Ok comp.
Proof.
  intros H. unfold EE.qualityMosaic. destruct c as [| first rest]; [eauto |].
  rewrite Forall_forall in H.
  assert (E : forallb (fun i => has_band i quality) (first :: rest) = true)
    by (apply forallb_forall; exact H).
  rewrite E. eauto.
Qed.

Lemma qualityMosaic_pixel (c : list (Image Q)) (quality : string)
  (comp : Image Q) (p : Pixel) :
  EE.qualityMosaic c quality = Ok comp ->
  pixel_value comp quality p
  = match EE.winner quality p c with
    | Some w => pixel_value w quality p
    | None => None
    end.
Proof.
  unfold EE.qualityMosaic. destruct c as [| first rest].
  - intros [= <-]. reflexivity.
  - destruct (forallb _ (first :: rest)) eqn:Hall; [| discriminate].
    intros [= <-]. unfold pixel_value at 1. cbn [bands].
    rewrite (lookup_band_map
               (fun (b : string * Raster Q) (x : Pixel) =>
                  match EE.winner quality x (first :: rest) with
                  | Some w => pixel_value w (fst b) x
                  | None => None
                  end)).
    cbn [forallb] in Hall. apply andb_true_iff in Hall as (Hfirst & _).
    apply has_band_lookup in Hfirst as (r & Hr). unfold lookup_band in Hr.
    destruct (find _ (bands first)) as [b |] eqn:Hb; [| discriminate].
    apply lookup_band_name in Hb. cbn [option_map]. now rewrite Hb.
Qed.

Lemma bands_set {V : Type} (img : Image V) (key : string) (value : Z) :
  bands (EE.set img key value) = bands img.
Proof. unfold EE.set. now destruct (String.eqb key _). Qed.

Lemma Forall_filterDate {V : Type} (P : Image V -> Prop) (c : list (Image V))
  (s e : Z) :
  Forall P c -> Forall P (EE.filterDate c s e).
Proof.
  rewrite !Forall_forall. intros H i Hi. apply filterDate_In in Hi as (Hi & _).
  now apply H.
Qed.

(** The composite of a month: it exists whenever the processed images carry
    the quality band, is stamped with the start of the window, and at each
    pixel takes the quality value of the winner among the selected images. *)
Lemma create_monthly_mvc_ok (processed : list (Image Q)) (m s e : Z) :
  month_window m = Ok (s, e) ->
  Forall (fun i => has_band i "NDVI" = true) processed ->
  exists comp,
    create_monthly_mvc processed m = Ok comp
    /\ (EE.filterDate processed s e = [] -> bands comp = [])
    /\ time_start comp = Some s
    /\ forall p,
        pixel_value comp "NDVI" p
        = match EE.winner "NDVI" p (EE.filterDate processed s e) with
          | Some w => pixel_value w "NDVI" p
          | None => None
          end.
Proof.
  intros Hw Hall. unfold create_monthly_mvc. rewrite Hw. cbn [bind].
  destruct (qualityMosaic_total (EE.filterDate processed s e) "NDVI")
    as (mosaic & Hm); [now apply Forall_filterDate |].
  rewrite Hm. cbn [bind]. eexists. split; [reflexivity |].
  split; [| split; [reflexivity |]].
  - intros Hnil. rewrite bands_set. rewrite Hnil in Hm.
    now injection Hm as <-.
  - intros p. rewrite <- (qualityMosaic_pixel _ _ _ p Hm).
    apply pixel_value_bands, bands_set.
Qed.

(** C1.  For every month index [m] from 1 to 12 the composite exists, is
    stamped with the start of the window, and at every pixel its [NDVI] value
    is the greatest valid [NDVI] value among the processed images whose
    timestamp lies in the half-open window from the start of month [m] to the
    start of month [m + 1]: it is the value of one of them and no valid value
    of them exceeds it; it is nodata exactly when none of them is valid
    there (in particular when the window selects no image). *)
Theorem monthly_composite_is_max_of_window (processed : list (Image Q)) (m : Z) :
  1 <= m <= 12 ->
  Forall (fun i => has_band i "NDVI" = true) processed ->
  exists s e comp,
    start_of_month m = Ok s /\ start_of_month (m + 1) = Ok e
    /\ create_monthly_mvc processed m = Ok comp
    /\ time_start comp = Some s
    /\ forall p,
        match pixel_value comp "NDVI" p with
        | Some v =>
            (exists i, In i processed /\ in_window s e i
                       /\ pixel_value i "NDVI" p = Some v)
            /\ (forall i w, In i processed -> in_window s e i ->
                            pixel_value i "NDVI" p = Some w -> (w <= v)%Q)
        | None =>
            forall i, In i processed -> in_window s e i ->
                      pixel_value i "NDVI" p = None
        end.
Proof.
  intros Hm Hall.
  destruct (month_window_tiles m Hm) as (s & e & Hw & Hs & He & _).
  destruct (create_monthly_mvc_ok processed m s e Hw Hall)
    as (comp & Hc & _ & Ht & Hp).
  exists s, e, comp. repeat (split; [assumption |]).
  intros p. rewrite Hp.
  pose proof (winner_greatest "NDVI" p (EE.filterDate processed s e)) as Hg.
  destruct (EE.winner "NDVI" p (EE.filterDate processed s e)) as [w |].
  - destruct Hg as (Hin & v & Hv & Hmax). rewrite Hv. split.
    + apply filterDate_In in Hin as (Hin & Hwin). eauto.
    + intros i u Hi Hwin Hu. apply (Hmax i); [| assumption].
      apply filterDate_In. auto.
  - intros i Hi Hwin. apply Hg. apply filterDate_In. auto.
Qed.

(** Scenario A: March images with index 0.5 and 0.3 give 0.5. *)
Lemma march_composite_is_0_5 :
  exists comp,
    create_monthly_mvc march_collection 1 = Ok comp
    /\ pixel_value comp "NDVI" (0, 0) = Some 0.5%Q.
Proof.
  destruct (monthly_composite_is_max_of_window march_collection 1)
    as (s & e & comp & Hs & He & Hc & _ & Hp);
    [lia | repeat constructor |].
  vm_compute in Hs. injection Hs as <-.
  vm_compute in He. injection He as <-.
  exists comp. split; [exact Hc |].
  assert (Hfirst : in_window 1709251200000 1711929600000
                     (ndvi_image march_1 (constant 0.5%Q)))
    by (exists march_1; split; [reflexivity | unfold march_1; lia]).
  specialize (Hp (0, 0)).
  destruct (pixel_value comp "NDVI" (0, 0)) as [v |].
  - destruct Hp as ((i & Hin & _ & Hv) & Hmax).
    destruct Hin as [<- | [<- | []]]; cbn in Hv; injection Hv as <-.
    + reflexivity.
    + exfalso.
      assert (Hle : (0.5 <= 0.3)%Q)
        by (apply (Hmax (ndvi_image march_1 (constant 0.5%Q)));
            [now left | exact Hfirst | reflexivity]).
      unfold Qle in Hle. simpl in Hle. lia.
  - exfalso.
    assert (Hnone : pixel_value (ndvi_image march_1 (constant 0.5%Q))
                      "NDVI" (0, 0) = None)
      by (apply Hp; [now left | exact Hfirst]).
    discriminate Hnone.
Defined.

(** ** The processed collection *)

Lemma Forall2_transfer {A B : Type} (R : A -> B -> Prop) (P : A -> Prop)
  (P' : B -> Prop) (l : list A) (l' : list B) :
  (forall a b, R a b -> P a -> P' b) ->
  Forall2 R l l' -> Forall P l -> Forall P' l'.
Proof.
  intros Hstep H. induction H as [| a b l l' Hab _ IH]; intros Hl.
  - constructor.
  - inversion Hl; subst. constructor; eauto.
Qed.

Lemma filter_none {A : Type} (f : A -> bool) (l : list A) :
  (forall a, In a l -> f a = false) -> filter f l = [].
Proof.
  induction l as [| a l IH]; intros H; simpl; [reflexivity |].
  rewrite (H a) by now left. apply IH. intros x Hx. apply H. now right.
Qed.

Lemma select_time_start {V : Type} (img out : Image V) (pattern : string) :
  EE.select img pattern = Ok out -> time_start out = time_start img.
Proof. intros H. now apply select_ok in H as (-> & _). Qed.

Lemma mask_s2_clouds_time_start (image : Image N) (out : Image Q) :
  mask_s2_clouds image = Ok out -> time_start out = time_start image.
Proof.
  intros H. apply mask_s2_clouds_ok in H as (masked & _ & H).
  unfold scale_and_select in H. cbn [bind] in H.
  apply bind_ok in H as (scaled & Hs & [= <-]).
  apply select_time_start in Hs.
  unfold EE.copyProperties. cbn [EE.contains existsb String.eqb Ascii.eqb
                                 Bool.eqb orb andb].
  destruct (time_start image) as [t |]; [reflexivity |].
  rewrite Hs. reflexivity.
Qed.

Lemma add_ndvi_time_start (image out : Image Q) :
  add_ndvi image = Ok out -> time_start out = time_start image.
Proof.
  unfold add_ndvi. intros H. now apply bind_ok in H as (nd & _ & [= <-]).
Qed.

Lemma select_literal_has_band {V : Type} (img out : Image V)
  (pattern : string) :
  literal pattern ->
  EE.select img pattern = Ok out -> has_band out pattern = true.
Proof.
  intros Hlit H. apply select_ok in H as (-> & Hne).
  unfold has_band, with_bands in *. cbn [bands] in *.
  destruct (filter _ (bands img)) as [| b bs] eqn:Hf; [congruence |].
  assert (Hb : In b (filter (fun b => EE.pattern_matches pattern (fst b))
                        (bands img))) by (rewrite Hf; now left).
  apply filter_In in Hb as (_ & Hb). rewrite Hlit in Hb.
  cbn [existsb]. now rewrite Hb.
Qed.

Lemma s2_collection_ok (archive : list (Image N)) :
  s2_collection archive
  = Ok (EE.filterDate (EE.filterBounds archive aoi) start_millis end_millis).
Proof. reflexivity. Qed.

(** Every processed image carries the band [NDVI] and a timestamp within the
    configured date range. *)
Lemma s2_processed_ok (archive : list (Image N)) (processed : list (Image Q)) :
  s2_processed archive = Ok processed ->
  Forall (fun i => has_band i "NDVI" = true) processed
  /\ Forall (in_window start_millis end_millis) processed.
Proof.
  unfold s2_processed. rewrite s2_collection_ok. cbn [bind]. intros H.
  apply bind_ok in H as (masked & Hmasked & H).
  apply bind_ok in H as (indexed & Hindexed & H).
  apply mapM_ok in Hmasked, Hindexed, H.
  assert (Hc : Forall (in_window start_millis end_millis)
                 (EE.filterDate (EE.filterBounds archive aoi)
                    start_millis end_millis)).
  { apply Forall_forall. intros i Hi. now apply filterDate_In in Hi. }
  assert (Hm : Forall (in_window start_millis end_millis) masked).
  { refine (Forall2_transfer _ _ _ _ _ _ Hmasked Hc).
    intros a b Hab (t & Ht & Hr). exists t.
    now rewrite (mask_s2_clouds_time_start _ _ Hab). }
  assert (Hi : Forall (in_window start_millis end_millis) indexed).
  { refine (Forall2_transfer _ _ _ _ _ _ Hindexed Hm).
    intros a b Hab (t & Ht & Hr). exists t.
    now rewrite (add_ndvi_time_start _ _ Hab). }
  split.
  - refine (Forall2_transfer _ (fun _ => True) _ _ _ _ H _).
    + intros a b Hab _. exact (select_literal_has_band _ _ _ literal_NDVI Hab).
    + apply Forall_forall. auto.
  - refine (Forall2_transfer _ _ _ _ _ _ H Hi).
    intros a b Hab (t & Ht & Hr). exists t.
    now rewrite (select_time_start _ _ _ Hab).
Qed.

(** C9.  Whatever the archive holds, the processed collection lies within
    the configured date range (2024-03-01 to 2024-10-31), while the windows
    of the month indices 9 to 12 start on 2024-11-01 or later: these windows
    select no image, and their composites are built from the empty
    selection (they have no band). *)
Theorem late_windows_select_nothing (archive : list (Image N))
  (processed : list (Image Q)) (m : Z) :
  s2_processed archive = Ok processed ->
  9 <= m <= 12 ->
  exists s e november comp,
    month_window m = Ok (s, e)
    /\ Date.parse "2024-11-01" = Ok november /\ november <= s
    /\ EE.filterDate processed s e = []
    /\ create_monthly_mvc processed m = Ok comp
    /\ bands comp = [].
Proof.
  intros Hp Hm. apply s2_processed_ok in Hp as (Hndvi & Hrange).
  assert (Hw : exists s e, month_window m = Ok (s, e) /\ 1730419200000 <= s).
  { assert (Hcases : m = 9 \/ m = 10 \/ m = 11 \/ m = 12) by lia.
    destruct Hcases as [-> | [-> | [-> | ->]]];
      do 2 eexists; (split; [vm_compute; reflexivity | lia]). }
  destruct Hw as (s & e & Hw & Hs).
  assert (Hnil : EE.filterDate processed s e = []).
  { apply filter_none. intros i Hi.
    rewrite Forall_forall in Hrange.
    destruct (Hrange i Hi) as (t & Ht & Hr).
    unfold EE.in_range. rewrite Ht. unfold end_millis in Hr.
    apply andb_false_iff. left. apply Z.leb_gt. lia. }
  destruct (create_monthly_mvc_ok processed m s e Hw Hndvi)
    as (comp & Hc & Hempty & _).
  exists s, e, 1730419200000, comp.
  repeat split; auto.
Qed.

(** The ninth window (November 2024) over an archive of March images. *)
Lemma november_window_is_empty :
  exists s e comp,
    month_window 9 = Ok (s, e)
    /\ EE.filterDate (the_collection (s2_processed march_archive)) s e = []
    /\ create_monthly_mvc (the_collection (s2_processed march_archive)) 9
       = Ok comp
    /\ bands comp = [].
Proof.
  destruct (late_windows_select_nothing march_archive
              (the_collection (s2_processed march_archive)) 9)
    as (s & e & november & comp & Hw & _ & _ & Hnil & Hc & Hb);
    [reflexivity | lia |].
  exists s, e, comp. auto.
Defined.

(** ** The annual mean *)

Lemma accumulate_fold (l : list (option Q)) (acc : Q * Z) :
  (fst (fold_left EE.accumulate l acc) == fst acc + total (valid_values l))%Q
  /\ snd (fold_left EE.accumulate l acc)
     = snd acc + Z.of_nat (List.length (valid_values l)).
Proof.
  revert acc. induction l as [| s l IH]; intros acc; cbn [fold_left].
  - simpl. split; [ring | lia].
  - destruct (IH (EE.accumulate acc s)) as (Hs & Hn).
    rewrite Hs, Hn. destruct s as [v |]; simpl.
    + split; [ring | lia].
    + split; [reflexivity | lia].
Qed.

(** The mean reducer computes the arithmetic mean of the valid samples. *)
Lemma mean_samples_spec (l : list (option Q)) :
  same_sample (EE.mean_samples l) (arithmetic_mean (valid_values l)).
Proof.
  unfold EE.mean_samples.
  destruct (accumulate_fold l (0%Q, 0)) as (Hs & Hn).
  destruct (fold_left EE.accumulate l (0%Q, 0)) as [s n].
  cbn [fst snd] in Hs, Hn. rewrite Z.add_0_l in Hn. rewrite Qplus_0_l in Hs.
  subst n. unfold arithmetic_mean.
  destruct (valid_values l) as [| v vs]; [reflexivity |].
  replace (Z.of_nat (List.length (v :: vs)) =? 0) with false
    by (symmetry; apply Z.eqb_neq; simpl; lia).
  simpl. now rewrite Hs.
Qed.

Lemma ic_mean_pixel (c : list (Image Q)) (name : string) (p : Pixel) :
  (forall first rest, c = first :: rest -> has_band first name = true) ->
  pixel_value (EE.ic_mean c) name p
  = EE.mean_samples (map (fun i => pixel_value i name p) c).
Proof.
  intros Hfirst. unfold EE.ic_mean. destruct c as [| first rest];
    [reflexivity |].
  unfold pixel_value at 1. cbn [bands].
  rewrite (lookup_band_map
             (fun (b : string * Raster Q) (x : Pixel) =>
                EE.mean_samples
                  (map (fun i => pixel_value i (fst b) x) (first :: rest)))).
  specialize (Hfirst first rest eq_refl).
  apply has_band_lookup in Hfirst as (r & Hr). unfold lookup_band in Hr.
  destruct (find _ (bands first)) as [b |] eqn:Hb; [| discriminate].
  apply lookup_band_name in Hb. cbn [option_map]. now rewrite Hb.
Qed.

Lemma ic_select_total {V : Type} (c : list (Image V)) (pattern : string) :
  literal pattern ->
  Forall (fun i => has_band i pattern = true) c ->
  exists sel, EE.ic_select c pattern = Ok sel.
Proof.
  intros Hlit H. apply mapM_total.
  eapply Forall_impl; [| exact H].
  intros i Hi. now apply select_literal_total.
Qed.

Lemma ic_select_pixels {V : Type} (c sel : list (Image V)) (pattern : string)
  (p : Pixel) :
  literal pattern ->
  EE.ic_select c pattern = Ok sel ->
  map (fun i => pixel_value i pattern p) sel
  = map (fun i => pixel_value i pattern p) c
  /\ Forall (fun i => has_band i pattern = true) sel.
Proof.
  intros Hlit H. apply mapM_ok in H.
  induction H as [| a b l l' Hab _ (IHmap & IHall)]; [now split |].
  split.
  - cbn [map]. rewrite IHmap. f_equal.
    rewrite (pixel_value_select _ _ _ _ _ Hab), Hlit.
    now rewrite String.eqb_refl.
  - constructor; [| assumption].
    exact (select_literal_has_band _ _ _ Hlit Hab).
Qed.

(** The annual raster of composites that carry [NDVI]: the mean reducer
    over their samples, in the target projection. *)
Lemma mean_ndvi_ok (composites : list (Image Q)) :
  Forall (fun c => has_band c "NDVI" = true) composites ->
  exists out,
    mean_ndvi composites = Ok out
    /\ projection out = Some ("EPSG:4326"%string, 10)
    /\ forall p,
        pixel_value out "NDVI" p
        = EE.mean_samples (map (fun c => pixel_value c "NDVI" p) composites).
Proof.
  intros Hall. unfold mean_ndvi.
  destruct (ic_select_total composites "NDVI" literal_NDVI Hall) as (sel & Hsel).
  rewrite Hsel. cbn [bind]. eexists. split; [reflexivity |].
  split; [reflexivity |]. intros p.
  destruct (ic_select_pixels _ _ _ p literal_NDVI Hsel) as (Hmap & Hband).
  rewrite <- Hmap.
  rewrite (pixel_value_bands _ (EE.ic_mean sel)) by reflexivity.
  apply ic_mean_pixel. intros first rest ->. now inversion Hband.
Qed.

(** What [mean_ndvi] computes when it succeeds: over composites that all
    carry the [NDVI] band, the arithmetic mean, at every pixel, of exactly
    those values that are valid there, nodata when none is, in the
    projection EPSG:4326 at scale 10. *)
Lemma mean_ndvi_is_arithmetic_mean (composites : list (Image Q)) :
  Forall (fun c => has_band c "NDVI" = true) composites ->
  exists out,
    mean_ndvi composites = Ok out
    /\ projection out = Some ("EPSG:4326"%string, 10)
    /\ forall p,
        same_sample
          (pixel_value out "NDVI" p)
          (arithmetic_mean
             (valid_values (map (fun c => pixel_value c "NDVI" p) composites))).
Proof.
  intros Hall. destruct (mean_ndvi_ok composites Hall) as (out & Hout & Hproj & Hp).
  exists out. split; [assumption |]. split; [assumption |].
  intros p. rewrite Hp. apply mean_samples_spec.
Qed.

(** ** Empty windows *)

Lemma month_window_total (m : Z) :
  month_window m
  = Ok (Date.advance_month start_millis (m - 1),
        Date.advance_month (Date.advance_month start_millis (m - 1)) 1).
Proof. reflexivity. Qed.

Lemma ic_select_missing {V : Type} (c : list (Image V)) (img : Image V)
  (pattern : string) :
  literal pattern -> In img c -> has_band img pattern = false ->
  EE.ic_select c pattern = Raise (BandNotMatched pattern).
Proof.
  intros Hlit Hin Hmiss. unfold EE.ic_select.
  apply (mapM_raise_same _ _ img).
  - intros x e. apply select_raise.
  - assumption.
  - now apply select_literal_missing.
Qed.

(** The composite of a window that selects nothing exists but has no band,
    and no annual mean can be taken of a collection that contains it. *)
Lemma empty_window_composite (processed : list (Image Q)) (m s e : Z) :
  month_window m = Ok (s, e) ->
  EE.filterDate processed s e = [] ->
  exists comp,
    create_monthly_mvc processed m = Ok comp
    /\ bands comp = []
    /\ (forall name p, pixel_value comp name p = None)
    /\ forall composites,
        In comp composites ->
        mean_ndvi composites = Raise (BandNotMatched "NDVI").
Proof.
  intros Hw Hnil. unfold create_monthly_mvc. rewrite Hw. cbn [bind].
  rewrite Hnil. cbn [EE.qualityMosaic bind].
  eexists. split; [reflexivity |]. split; [reflexivity |].
  split; [reflexivity |].
  intros composites Hin. unfold mean_ndvi.
  now rewrite (ic_select_missing composites _ "NDVI" literal_NDVI Hin).
Qed.

(** X16.  With the configured dates the annual mean is never obtained:
    whatever the archive, the run fails, because either the processing of
    an image fails or the window of month 12 is empty and the selection of
    [NDVI] finds no band in its composite. *)
Lemma main_raises (archive : list (Image N)) :
  exists e, main archive = Raise e.
Proof.
  unfold main.
  destruct (s2_processed archive) as [processed | e] eqn:Hp; [| simpl; eauto].
  cbn [bind].
  destruct (monthly_mvc_collection processed) as [monthly | e] eqn:Hm;
    [| simpl; eauto].
  cbn [bind]. exists (BandNotMatched "NDVI").
  apply s2_processed_ok in Hp as (_ & Hrange).
  assert (Hnil : EE.filterDate processed 1738368000000 1740787200000 = []).
  { apply filter_none. intros i Hi. rewrite Forall_forall in Hrange.
    destruct (Hrange i Hi) as (t & Ht & Hr).
    unfold EE.in_range. rewrite Ht. unfold end_millis in Hr.
    apply andb_false_iff. left. apply Z.leb_gt. lia. }
  destruct (empty_window_composite processed 12 _ _ eq_refl Hnil)
    as (comp & Hc & _ & _ & Hmean).
  apply Hmean. unfold monthly_mvc_collection in Hm. apply mapM_ok in Hm.
  assert (Hin : forall (ms : list Z) cs,
             Forall2 (fun a b => create_monthly_mvc processed a = Ok b) ms cs ->
             In 12 ms -> In comp cs).
  { induction 1 as [| a b ms cs Hab _ IH]; intros H12; [destruct H12 |].
    destruct H12 as [-> | H12]; [left; congruence | right; auto]. }
  apply (Hin months); [assumption | unfold months; simpl; tauto].
Qed.

(** C3.  At the archive [march_archive] the window of month 2 (April 2024)
    selects no image; the compositing step succeeds for all twelve months,
    the composite of month 2 having no band, and the annual mean over the
    composites then fails: the selection of [NDVI] does not match any band of
    the empty composite, and so the whole run fails. *)
Theorem empty_window_breaks_annual_mean :
  let processed := the_collection (s2_processed march_archive) in
  let monthly := the_collection (monthly_mvc_collection processed) in
  s2_processed march_archive = Ok processed
  /\ month_window 2 = Ok (1711929600000, 1714521600000)
  /\ EE.filterDate processed 1711929600000 1714521600000 = []
  /\ monthly_mvc_collection processed = Ok monthly
  /\ map EE.bandNames monthly = ["NDVI"%string] :: repeat [] 11
  /\ mean_ndvi monthly = Raise (BandNotMatched "NDVI")
  /\ main march_archive = Raise (BandNotMatched "NDVI").
Proof.
  cbv zeta. repeat split; vm_compute; reflexivity.
Qed.

(** C2.  At the archive [spring_archive] the composites of the first two
    months hold the index 0.2 and 0.8 at the pixel and the other ten months
    have no image, so the annual value there should be their mean 0.5; but
    the ten composites of the empty windows have no band, the selection of
    [NDVI] fails on them, and neither the mean nor the reprojected annual
    raster is produced: the run fails. *)
Theorem annual_mean_is_not_produced :
  let processed := the_collection (s2_processed spring_archive) in
  let monthly := the_collection (monthly_mvc_collection processed) in
  s2_processed spring_archive = Ok processed
  /\ monthly_mvc_collection processed = Ok monthly
  /\ Forall2 same_sample
       (map (fun c => pixel_value c "NDVI" (0, 0)) monthly)
       (Some 0.2%Q :: Some 0.8%Q :: repeat None 10)
  /\ same_sample
       (arithmetic_mean
          (valid_values (map (fun c => pixel_value c "NDVI" (0, 0)) monthly)))
       (Some 0.5%Q)
  /\ mean_ndvi monthly = Raise (BandNotMatched "NDVI")
  /\ main spring_archive = Raise (BandNotMatched "NDVI").
Proof.
  cbv zeta.
  split; [vm_compute; reflexivity |].
  split; [vm_compute; reflexivity |].
  split; [vm_compute; repeat constructor |].
  split; [vm_compute; reflexivity |].
  split; vm_compute; reflexivity.
Qed.

(** ** A missing band *)

Lemma mask_s2_clouds_missing_scl (image : Image N) :
  EE.contains (EE.bandNames image) "QA60" = false ->
  EE.contains (EE.bandNames image) "SCL" = false ->
  mask_s2_clouds image = Raise (BandNotMatched "SCL").
Proof.
  intros Hqa Hscl. rewrite (mask_s2_clouds_with_scl _ Hqa).
  unfold scale_and_select, mask_with_scl.
  rewrite (select_literal_missing image "SCL" literal_SCL)
    by now rewrite has_band_contains.
  reflexivity.
Qed.

(** C8 (as the code has it).  The bitmask strategy is only selected when its
    band [QA60] is present.  When an image of the filtered collection has
    neither [QA60] nor [SCL], the selected classification strategy fails on
    it with the band-not-matched error for [SCL], and the failure is not
    confined to that image: the processed collection and the whole run fail;
    the image is not dropped. *)
Theorem missing_band_fails_the_run (archive c : list (Image N))
  (image : Image N) :
  s2_collection archive = Ok c ->
  In image c ->
  EE.contains (EE.bandNames image) "QA60" = false ->
  EE.contains (EE.bandNames image) "SCL" = false ->
  mask_s2_clouds image = Raise (BandNotMatched "SCL")
  /\ exists e, s2_processed archive = Raise e /\ main archive = Raise e.
Proof.
  intros Hc Hin Hqa Hscl.
  pose proof (mask_s2_clouds_missing_scl image Hqa Hscl) as Hmask.
  split; [assumption |].
  destruct (mapM_raise mask_s2_clouds c image _ Hin Hmask) as (e & He).
  exists e. unfold main, s2_processed. rewrite Hc. cbn [bind].
  rewrite He. split; reflexivity.
Qed.

(** The image without [QA60] and [SCL] makes the run over [bare_archive]
    fail. *)
Lemma bare_image_fails_the_run :
  exists e, s2_processed bare_archive = Raise e /\ main bare_archive = Raise e.
Proof.
  destruct (missing_band_fails_the_run bare_archive
              (the_collection (s2_collection bare_archive)) bare_image)
    as (_ & e & H); [reflexivity | | reflexivity | reflexivity |].
  - right. left. reflexivity.
  - exists e. exact H.
Defined.

(** C8 (as stated) fails at [bare_archive]: [bare_image] has neither [QA60]
    nor [SCL]; dropping it would leave the collection that [water_image]
    alone gives, which evaluates, but the processed collection with it does
    not exist and the run fails with the error of that image. *)
Lemma missing_band_image_is_not_dropped :
  mask_s2_clouds bare_image = Raise (BandNotMatched "SCL")
  /\ is_ok (s2_processed [water_image]) = true
  /\ s2_processed bare_archive = Raise (BandNotMatched "SCL")
  /\ main bare_archive = Raise (BandNotMatched "SCL").
Proof. repeat split; vm_compute; reflexivity. Qed.

(** ** Independence of the order of the collection *)

Lemma filter_Permutation {A : Type} (f : A -> bool) (l l' : list A) :
  Permutation l l' -> Permutation (filter f l) (filter f l').
Proof.
  induction 1 as [| x l l' _ IH | x y l | l l' l'' _ IH1 _ IH2]; simpl.
  - constructor.
  - destruct (f x); [now constructor | assumption].
  - destruct (f x), (f y); try apply Permutation_refl. apply perm_swap.
  - now apply Permutation_trans with (filter f l').
Qed.

Lemma mapM_Permutation {A B : Type} (f : A -> result B) (l l' : list A) :
  Permutation l l' ->
  forall r, mapM f l = Ok r ->
            exists r', mapM f l' = Ok r' /\ Permutation r r'.
Proof.
  induction 1 as [| x l l' _ IH | x y l | l l' l'' _ IH1 _ IH2]; intros r Hr.
  - exists r. split; [assumption | apply Permutation_refl].
  - cbn [mapM] in *. apply bind_ok in Hr as (b & Hb & Hr).
    apply bind_ok in Hr as (bs & Hbs & [= <-]).
    destruct (IH _ Hbs) as (bs' & -> & Hperm). rewrite Hb. cbn [bind].
    exists (b :: bs'). split; [reflexivity | now constructor].
  - cbn [mapM] in *. apply bind_ok in Hr as (by_ & Hy & Hr).
    apply bind_ok in Hr as (rest & Hr & [= <-]).
    apply bind_ok in Hr as (bx & Hx & Hr).
    apply bind_ok in Hr as (bs & Hbs & [= <-]).
    rewrite Hx, Hy, Hbs. cbn [bind].
    exists (bx :: by_ :: bs). split; [reflexivity | apply perm_swap].
  - destruct (IH1 _ Hr) as (r' & Hr' & Hp1).
    destruct (IH2 _ Hr') as (r'' & Hr'' & Hp2).
    exists r''. split; [assumption | now apply Permutation_trans with r'].
Qed.

Lemma s2_processed_Permutation (a1 a2 : list (Image N)) (l1 : list (Image Q)) :
  Permutation a1 a2 ->
  s2_processed a1 = Ok l1 ->
  exists l2, s2_processed a2 = Ok l2 /\ Permutation l1 l2.
Proof.
  intros Hperm. unfold s2_processed. rewrite !s2_collection_ok. cbn [bind].
  intros H.
  apply bind_ok in H as (masked & Hmasked & H).
  apply bind_ok in H as (indexed & Hindexed & H).
  assert (Hc : Permutation
                 (EE.filterDate (EE.filterBounds a1 aoi) start_millis end_millis)
                 (EE.filterDate (EE.filterBounds a2 aoi) start_millis end_millis))
    by (unfold EE.filterDate, EE.filterBounds; now do 2 apply filter_Permutation).
  destruct (mapM_Permutation _ _ _ Hc _ Hmasked) as (masked' & -> & Hm).
  cbn [bind].
  destruct (mapM_Permutation _ _ _ Hm _ Hindexed) as (indexed' & -> & Hi).
  cbn [bind].
  exact (mapM_Permutation _ _ _ Hi _ H).
Qed.

Lemma winner_same_value (quality : string) (p : Pixel) (l1 l2 : list (Image Q)) :
  (forall i, In i l1 <-> In i l2) ->
  same_sample
    match EE.winner quality p l1 with
    | Some w => pixel_value w quality p
    | None => None
    end
    match EE.winner quality p l2 with
    | Some w => pixel_value w quality p
    | None => None
    end.
Proof.
  intros Hsame.
  pose proof (winner_greatest quality p l1) as H1.
  pose proof (winner_greatest quality p l2) as H2.
  destruct (EE.winner quality p l1) as [w1 |],
           (EE.winner quality p l2) as [w2 |].
  - destruct H1 as (Hin1 & v1 & Hv1 & Hmax1).
    destruct H2 as (Hin2 & v2 & Hv2 & Hmax2).
    rewrite Hv1, Hv2. simpl. apply Qle_antisym.
    + apply (Hmax2 w1); [now apply Hsame | assumption].
    + apply (Hmax1 w2); [now apply Hsame | assumption].
  - destruct H1 as (Hin1 & v1 & Hv1 & _).
    rewrite (H2 w1) in Hv1 by now apply Hsame. discriminate.
  - destruct H2 as (Hin2 & v2 & Hv2 & _).
    rewrite (H1 w2) in Hv2 by now apply Hsame. discriminate.
  - exact I.
Qed.

Lemma has_band_map {V W : Type} (F : string * Raster V -> Raster W)
  (name : string) (bs : list (string * Raster V)) :
  existsb (fun b => String.eqb name (fst b)) (map (fun b => (fst b, F b)) bs)
  = existsb (fun b => String.eqb name (fst b)) bs.
Proof.
  induction bs as [| b bs IH]; simpl; [reflexivity |]. now rewrite IH.
Qed.

(** A composite carries the index band exactly when its window selects an
    image. *)
Lemma create_monthly_mvc_has_band (processed : list (Image Q)) (m s e : Z)
  (comp : Image Q) :
  month_window m = Ok (s, e) ->
  Forall (fun i => has_band i "NDVI" = true) processed ->
  create_monthly_mvc processed m = Ok comp ->
  has_band comp "NDVI"
  = match EE.filterDate processed s e with [] => false | _ => true end.
Proof.
  intros Hw Hall. unfold create_monthly_mvc. rewrite Hw. cbn [bind].
  pose proof (Forall_filterDate _ _ s e Hall) as Hsel.
  unfold EE.qualityMosaic.
  destruct (EE.filterDate processed s e) as [| first rest].
  - cbn [bind]. now intros [= <-].
  - destruct (forallb _ (first :: rest)); cbn [bind]; [| discriminate].
    intros [= <-]. unfold has_band. rewrite bands_set. cbn [bands].
    rewrite (has_band_map
               (fun (b : string * Raster Q) (x : Pixel) =>
                  match EE.winner "NDVI" x (first :: rest) with
                  | Some w => pixel_value w (fst b) x
                  | None => None
                  end)).
    now inversion Hsel.
Qed.

Lemma create_monthly_mvc_same (l1 l2 : list (Image Q)) (m : Z) :
  (forall i, In i l1 <-> In i l2) ->
  Forall (fun i => has_band i "NDVI" = true) l1 ->
  Forall (fun i => has_band i "NDVI" = true) l2 ->
  exists c1 c2,
    create_monthly_mvc l1 m = Ok c1 /\ create_monthly_mvc l2 m = Ok c2
    /\ same_composite c1 c2.
Proof.
  intros Hsame H1 H2.
  pose proof (month_window_total m) as Hw.
  destruct (create_monthly_mvc_ok l1 m _ _ Hw H1) as (c1 & Hc1 & _ & Ht1 & Hp1).
  destruct (create_monthly_mvc_ok l2 m _ _ Hw H2) as (c2 & Hc2 & _ & Ht2 & Hp2).
  exists c1, c2. split; [assumption |]. split; [assumption |].
  assert (Hsel : forall i,
             In i (EE.filterDate l1 (Date.advance_month start_millis (m - 1))
                     (Date.advance_month
                        (Date.advance_month start_millis (m - 1)) 1))
             <-> In i (EE.filterDate l2 (Date.advance_month start_millis (m - 1))
                         (Date.advance_month
                            (Date.advance_month start_millis (m - 1)) 1))).
  { intros i. rewrite !filterDate_In. now rewrite Hsame. }
  split; [congruence |]. split.
  - rewrite (create_monthly_mvc_has_band _ _ _ _ _ Hw H1 Hc1).
    rewrite (create_monthly_mvc_has_band _ _ _ _ _ Hw H2 Hc2).
    destruct (EE.filterDate l1 _ _) as [| i1 r1], (EE.filterDate l2 _ _) as [| i2 r2];
      try reflexivity.
    + destruct (proj2 (Hsel i2)). now left.
    + destruct (proj1 (Hsel i1)). now left.
  - intros p. rewrite Hp1, Hp2. now apply winner_same_value.
Qed.

Lemma monthly_mvc_same (l1 l2 : list (Image Q)) (ms : list Z) :
  (forall i, In i l1 <-> In i l2) ->
  Forall (fun i => has_band i "NDVI" = true) l1 ->
  Forall (fun i => has_band i "NDVI" = true) l2 ->
  exists c1 c2,
    mapM (create_monthly_mvc l1) ms = Ok c1
    /\ mapM (create_monthly_mvc l2) ms = Ok c2
    /\ Forall2 same_composite c1 c2.
Proof.
  intros Hsame H1 H2. induction ms as [| m ms (c1 & c2 & E1 & E2 & IH)].
  - exists [], []. repeat split; constructor.
  - destruct (create_monthly_mvc_same l1 l2 m Hsame H1 H2)
      as (x1 & x2 & Hx1 & Hx2 & Hx).
    exists (x1 :: c1), (x2 :: c2). cbn [mapM].
    rewrite Hx1, Hx2, E1, E2. repeat split; now constructor.
Qed.

(** X14.  The twelve composites do not depend on the order in which the
    archive is enumerated: if processing succeeds for an archive, it
    succeeds for every reordering of it, the compositing succeeds for both,
    and the composites agree month by month in their timestamp, in whether
    they carry the index band, and in every index sample. *)
Theorem composites_independent_of_order (a1 a2 : list (Image N))
  (l1 : list (Image Q)) :
  Permutation a1 a2 ->
  s2_processed a1 = Ok l1 ->
  exists l2 c1 c2,
    s2_processed a2 = Ok l2
    /\ monthly_mvc_collection l1 = Ok c1
    /\ monthly_mvc_collection l2 = Ok c2
    /\ Forall2 same_composite c1 c2.
Proof.
  intros Hperm H1.
  destruct (s2_processed_Permutation a1 a2 l1 Hperm H1) as (l2 & H2 & Hl).
  destruct (s2_processed_ok _ _ H1) as (Hb1 & _).
  destruct (s2_processed_ok _ _ H2) as (Hb2 & _).
  assert (Hsame : forall i, In i l1 <-> In i l2).
  { intros i. split; apply Permutation_in;
      [assumption | now apply Permutation_sym]. }
  destruct (monthly_mvc_same l1 l2 months Hsame Hb1 Hb2)
    as (c1 & c2 & E1 & E2 & Hc).
  exists l2, c1, c2. auto.
Qed.

(** The March archive in its two orders gives the same twelve composites. *)
Lemma march_archive_order_is_irrelevant :
  exists l2 c1 c2,
    s2_processed march_archive_reversed = Ok l2
    /\ monthly_mvc_collection (the_collection (s2_processed march_archive))
       = Ok c1
    /\ monthly_mvc_collection l2 = Ok c2
    /\ Forall2 same_composite c1 c2.
Proof.
  apply (composites_independent_of_order march_archive march_archive_reversed).
  - apply perm_swap.
  - reflexivity.
Defined.

(** * Further properties of the script *)

(** ** The filtered collection *)



(** ** What cloud masking returns *)

Lemma map_fst_filter {A B : Type} (f : A -> bool) (l : list (A * B)) :
  map fst (filter (fun b => f (fst b)) l) = filter f (map fst l).
Proof.
  induction l as [| b l IH]; simpl; [reflexivity |].
  destruct (f (fst b)); simpl; now rewrite IH.
Qed.

Lemma mask_strategy_names (image masked : Image N) :
  mask_with_qa image = Ok masked \/ mask_with_scl image = Ok masked ->
  EE.bandNames masked = EE.bandNames image
  /\ footprint masked = footprint image.
Proof.
  unfold mask_with_qa, mask_with_scl.
  intros [H | H]; apply bind_ok in H as (m & _ & [= <-]);
    (split; [apply bandNames_updateMask | reflexivity]).
Qed.

(** X2.  A masked image holds exactly the bands of its input whose name
    matches [B.*], in the input's order (so neither [QA60] nor [SCL]), and
    keeps the timestamp and the footprint of its input. *)
Theorem mask_s2_clouds_keeps_optical_bands (image : Image N) (out : Image Q) :
  mask_s2_clouds image = Ok out ->
  EE.bandNames out = filter (EE.pattern_matches "B.*") (EE.bandNames image)
  /\ time_start out = time_start image
  /\ footprint out = footprint image.
Proof.
  intros H. pose proof (mask_s2_clouds_time_start _ _ H) as Ht.
  apply mask_s2_clouds_ok in H as (masked & Hstrategy & H).
  apply mask_strategy_names in Hstrategy as (Hnames & Hfoot).
  unfold scale_and_select in H. cbn [bind] in H.
  apply bind_ok in H as (scaled & Hs & [= <-]).
  apply select_ok in Hs as (-> & _).
  split; [| split; [assumption |]].
  - unfold EE.bandNames at 1. rewrite bands_copyProperties.
    cbn [bands with_bands]. rewrite map_fst_filter.
    change (map fst (bands (EE.divide masked 10000)))
      with (EE.bandNames (EE.divide masked 10000)).
    unfold EE.divide. now rewrite bandNames_pointwise, Hnames.
  - rewrite <- Hfoot. unfold EE.copyProperties.
    destruct (EE.contains _ _); [| reflexivity].
    now destruct (time_start image).
Qed.

(** The masked water image has the bands [B4] and [B8] and the timestamp of
    the water image. *)
Lemma masked_water_image_bands :
  EE.bandNames masked_water_image = ["B4"%string; "B8"%string]
  /\ time_start masked_water_image = Some march_1
  /\ footprint masked_water_image = Some tile.
Proof.
  apply (mask_s2_clouds_keeps_optical_bands water_image masked_water_image).
  reflexivity.
Defined.

Lemma mask_s2_clouds_sample (image : Image N) (out : Image Q) (b : string)
  (p : Pixel) (x : Q) :
  mask_s2_clouds image = Ok out ->
  pixel_value out b p = Some x ->
  exists v, pixel_value image b p = Some v /\ x = reflectance v.
Proof.
  intros H Hx. apply mask_s2_clouds_ok in H as (masked & Hstrategy & H).
  rewrite (scale_and_select_pixel _ _ _ _ _ H) in Hx.
  destruct (EE.pattern_matches "B.*" b); [| discriminate].
  destruct Hstrategy as [Hm | Hm].
  - rewrite (mask_with_qa_pixel _ _ _ _ Hm) in Hx.
    destruct (pixel_value image "QA60" p) as [q |]; [| discriminate].
    destruct (clear_of_cloud q); [| discriminate].
    destruct (pixel_value image b p) as [v |]; [| discriminate].
    injection Hx as <-. eauto.
  - rewrite (mask_with_scl_pixel _ _ _ _ Hm) in Hx.
    destruct (pixel_value image "SCL" p) as [c |]; [| discriminate].
    destruct (vegetation_class c); [| discriminate].
    destruct (pixel_value image b p) as [v |]; [| discriminate].
    injection Hx as <-. eauto.
Qed.

(** X3.  Cloud masking only removes samples: a sample that is valid in the
    masked image was valid in the input at the same band and pixel, and is
    the input's digital number divided by 10000, hence never negative. *)
Theorem mask_s2_clouds_only_masks (image : Image N) (out : Image Q)
  (b : string) (p : Pixel) (x : Q) :
  mask_s2_clouds image = Ok out ->
  pixel_value out b p = Some x ->
  exists v,
    pixel_value image b p = Some v
    /\ x = (inject_Z (Z.of_N v) / inject_Z 10000)%Q
    /\ (0 <= x)%Q.
Proof.
  intros H Hx.
  destruct (mask_s2_clouds_sample _ _ _ _ _ H Hx) as (v & Hv & ->).
  exists v. split; [assumption |]. split; [reflexivity |].
  apply reflectance_nonneg.
Qed.

(** The red sample 0.1 of the masked water image comes from the digital
    number 1000. *)
Lemma masked_water_image_red :
  exists v,
    pixel_value water_image "B4" (0, 0) = Some v
    /\ reflectance 1000 = (inject_Z (Z.of_N v) / inject_Z 10000)%Q
    /\ (0 <= reflectance 1000)%Q.
Proof.
  apply (mask_s2_clouds_only_masks water_image masked_water_image "B4" (0, 0));
    reflexivity.
Defined.


(** ** What [add_ndvi] returns *)

Lemma select_literal_In {V : Type} (img : Image V) (name : string) :
  literal name ->
  (In name (EE.bandNames img) ->
   exists out, EE.select img name = Ok out)
  /\ (~ In name (EE.bandNames img) ->
      EE.select img name = Raise (BandNotMatched name)).
Proof.
  intros Hlit. split; intros H.
  - apply select_literal_total; [assumption |].
    rewrite has_band_contains. now apply contains_In.
  - apply select_literal_missing; [assumption |].
    rewrite has_band_contains.
    destruct (EE.contains (EE.bandNames img) name) eqn:E; [| reflexivity].
    apply contains_In in E. contradiction.
Qed.

(** X5.  [add_ndvi] succeeds exactly when the image has both the NIR band
    [B8] and the red band [B4]; otherwise it fails with the band-not-matched
    error of the first band it misses, [B8] before [B4]. *)
Theorem add_ndvi_succeeds_iff (image : Image Q) :
  (is_ok (add_ndvi image) = true
   <-> In "B8"%string (EE.bandNames image)
       /\ In "B4"%string (EE.bandNames image))
  /\ (~ In "B8"%string (EE.bandNames image) ->
      add_ndvi image = Raise (BandNotMatched "B8"))
  /\ (In "B8"%string (EE.bandNames image) ->
      ~ In "B4"%string (EE.bandNames image) ->
      add_ndvi image = Raise (BandNotMatched "B4")).
Proof.
  destruct (select_literal_In image "B8" literal_B8) as (Hok8 & Hno8).
  destruct (select_literal_In image "B4" literal_B4) as (Hok4 & Hno4).
  assert (Hmiss8 : ~ In "B8"%string (EE.bandNames image) ->
                   add_ndvi image = Raise (BandNotMatched "B8")).
  { intros H. unfold add_ndvi, EE.normalizedDifference. cbn [fst snd].
    now rewrite (Hno8 H). }
  assert (Hmiss4 : In "B8"%string (EE.bandNames image) ->
                   ~ In "B4"%string (EE.bandNames image) ->
                   add_ndvi image = Raise (BandNotMatched "B4")).
  { intros H8 H4. unfold add_ndvi, EE.normalizedDifference. cbn [fst snd].
    destruct (Hok8 H8) as (first & ->). cbn [bind]. now rewrite (Hno4 H4). }
  split; [| split; assumption].
  split.
  - intros Hok.
    destruct (in_dec string_dec "B8"%string (EE.bandNames image)) as [H8 | H8];
      [| rewrite (Hmiss8 H8) in Hok; discriminate].
    destruct (in_dec string_dec "B4"%string (EE.bandNames image)) as [H4 | H4];
      [| rewrite (Hmiss4 H8 H4) in Hok; discriminate].
    now split.
  - intros (H8 & H4). now destruct (add_ndvi_total image H8 H4) as (out & ->).
Qed.

(** X6.  On an image without a band named [NDVI], [add_ndvi] appends exactly
    one band, [NDVI], after the bands of the input, keeps the timestamp, and
    passes every other band through unchanged. *)
Theorem add_ndvi_appends_one_band (image out : Image Q) :
  add_ndvi image = Ok out ->
  EE.contains (EE.bandNames image) "NDVI" = false ->
  EE.bandNames out = EE.bandNames image ++ ["NDVI"%string]
  /\ time_start out = time_start image
  /\ forall name p,
      name <> "NDVI"%string ->
      pixel_value out name p = pixel_value image name p.
Proof.
  intros H Hfresh. pose proof (add_ndvi_time_start _ _ H) as Ht.
  unfold add_ndvi, EE.normalizedDifference in H.
  apply bind_ok in H as (nd & H & [= <-]).
  apply bind_ok in H as (first & _ & H).
  apply bind_ok in H as (second & _ & [= <-]).
  split; [| split; [assumption |]].
  - unfold EE.bandNames at 1, EE.addBands, EE.rename, with_bands.
    cbn [bands map fst snd]. rewrite Hfresh, map_app. reflexivity.
  - intros name p Hname.
    unfold pixel_value, EE.addBands, EE.rename, with_bands.
    cbn [bands map fst snd]. rewrite Hfresh, lookup_band_app.
    destruct (lookup_band name (bands image)); [reflexivity |].
    unfold lookup_band. cbn [find fst].
    apply String.eqb_neq in Hname. now rewrite Hname.
Qed.

(** The masked water image gets the bands [B4], [B8], [NDVI]. *)
Lemma add_ndvi_of_water_image_bands :
  let out := the_image (add_ndvi masked_water_image) in
  EE.bandNames out = EE.bandNames masked_water_image ++ ["NDVI"%string]
  /\ time_start out = time_start masked_water_image
  /\ forall name p,
      name <> "NDVI"%string ->
      pixel_value out name p = pixel_value masked_water_image name p.
Proof.
  apply (add_ndvi_appends_one_band masked_water_image
           (the_image (add_ndvi masked_water_image))); reflexivity.
Defined.

Lemma normalized_bounds (x y v : Q) :
  EE.normalized x y = Some v -> (-1 <= v <= 1)%Q.
Proof.
  unfold EE.normalized.
  destruct (Qle_bool 0 x) eqn:Hx; [| discriminate].
  destruct (Qle_bool 0 y) eqn:Hy; [| discriminate].
  cbn [andb]. destruct (Qeq_bool (x + y) 0) eqn:Hz; [discriminate |].
  intros [= <-].
  apply Qle_bool_iff in Hx, Hy. apply Qeq_bool_neq in Hz.
  assert (Hpos : (0 < x + y)%Q).
  { destruct (Qlt_le_dec 0 (x + y)) as [H | H]; [assumption |].
    exfalso. apply Hz. lra. }
  split.
  - apply Qle_shift_div_l; [assumption | lra].
  - apply Qle_shift_div_r; [assumption | lra].
Qed.

(** X7.  Every valid sample of the band [NDVI] that [add_ndvi] computes lies
    between -1 and 1. *)
Theorem ndvi_within_unit_interval (image out : Image Q) (p : Pixel) (v : Q) :
  add_ndvi image = Ok out ->
  EE.contains (EE.bandNames image) "NDVI" = false ->
  pixel_value out "NDVI" p = Some v ->
  (-1 <= v <= 1)%Q.
Proof.
  intros H Hfresh Hv. rewrite (add_ndvi_pixel _ _ p H Hfresh) in Hv.
  destruct (pixel_value image "B8" p) as [x |]; [| discriminate].
  destruct (pixel_value image "B4" p) as [y |]; [| discriminate].
  now apply normalized_bounds with x y.
Qed.

(** The index of the water image, (0.3 - 0.1) / (0.3 + 0.1), is within
    bounds. *)
Lemma ndvi_of_water_image_within_bounds :
  (-1 <= (reflectance 3000 - reflectance 1000)
         / (reflectance 3000 + reflectance 1000) <= 1)%Q.
Proof.
  apply (ndvi_within_unit_interval masked_water_image
           (the_image (add_ndvi masked_water_image)) (0, 0));
    reflexivity.
Defined.





(** ** The processed collection, image by image *)

Lemma Forall2_compose {A B C : Type} (R : A -> B -> Prop) (S : B -> C -> Prop)
  (l1 : list A) (l2 : list B) (l3 : list C) :
  Forall2 R l1 l2 -> Forall2 S l2 l3 ->
  Forall2 (fun a c => exists b, R a b /\ S b c) l1 l3.
Proof.
  intros H. revert l3. induction H as [| a b l1 l2 Hab _ IH]; intros l3 H3;
    inversion H3; subst; constructor; eauto.
Qed.

Lemma Forall2_right {A B : Type} (R : A -> B -> Prop) (P : B -> Prop)
  (l : list A) (l' : list B) :
  (forall a b, R a b -> P b) -> Forall2 R l l' -> Forall P l'.
Proof. intros HR. induction 1; constructor; eauto. Qed.

(** Each processed image is the [NDVI] band of the index image of the masked
    image of one image of the filtered collection, in the same order. *)
Lemma s2_processed_chain (archive : list (Image N))
  (processed : list (Image Q)) :
  s2_processed archive = Ok processed ->
  Forall2 (fun a y => exists m x,
               mask_s2_clouds a = Ok m /\ add_ndvi m = Ok x
               /\ EE.select x "NDVI" = Ok y)
          (EE.filterDate (EE.filterBounds archive aoi) start_millis end_millis)
          processed.
Proof.
  unfold s2_processed. rewrite s2_collection_ok. cbn [bind]. intros H.
  apply bind_ok in H as (masked & Hmasked & H).
  apply bind_ok in H as (indexed & Hindexed & H).
  apply mapM_ok in Hmasked, Hindexed, H.
  pose proof (Forall2_compose _ _ _ _ _ Hmasked
                (Forall2_compose _ _ _ _ _ Hindexed H)) as Hchain.
  eapply Forall2_impl; [| exact Hchain].
  intros a y (m & Hm & x & Hx & Hy). eauto.
Qed.






(** ** The twelve windows *)

Lemma month_window_bounds (m : Z) :
  1 <= m <= 12 ->
  month_window m = Ok (boundary (m - 1), boundary m).
Proof.
  intros H. apply month_cases in H. unfold months in H.
  repeat (destruct H as [<- | H]; [vm_compute; reflexivity |]).
  destruct H.
Qed.

Ltac eval_boundary :=
  repeat match goal with
         | |- context [boundary ?k] =>
             let v := eval vm_compute in (boundary k) in
             change (boundary k) with v
         end.

(** X10.  Every processed image falls into exactly one of the twelve monthly
    windows, and that window is one of the first eight: for the window of
    any month index from 1 to 12, the image is selected if and only if the
    index is that one. *)
Theorem processed_image_in_one_window (archive : list (Image N))
  (processed : list (Image Q)) (i : Image Q) :
  s2_processed archive = Ok processed ->
  In i processed ->
  exists m,
    1 <= m <= 8
    /\ forall m' s e,
        1 <= m' <= 12 ->
        month_window m' = Ok (s, e) ->
        (In i (EE.filterDate processed s e) <-> m' = m).
Proof.
  intros H Hi. apply s2_processed_ok in H as (_ & Hrange).
  rewrite Forall_forall in Hrange. destruct (Hrange i Hi) as (t & Ht & Hr).
  unfold start_millis, end_millis in Hr.
  assert (Hm : exists m, 1 <= m <= 8 /\ boundary (m - 1) <= t < boundary m).
  { assert (Hcases :
              t < boundary 1 \/ boundary 1 <= t < boundary 2
              \/ boundary 2 <= t < boundary 3 \/ boundary 3 <= t < boundary 4
              \/ boundary 4 <= t < boundary 5 \/ boundary 5 <= t < boundary 6
              \/ boundary 6 <= t < boundary 7 \/ boundary 7 <= t)
      by (cbv [boundary month_boundaries nth Z.to_nat Pos.to_nat
                 Pos.iter_op Nat.add]; lia).
    destruct Hcases as [Hc | [Hc | [Hc | [Hc | [Hc | [Hc | [Hc | Hc]]]]]]];
      [exists 1 | exists 2 | exists 3 | exists 4 | exists 5 | exists 6
       | exists 7 | exists 8];
      (split; [lia |]);
      revert Hc;
      cbv [boundary month_boundaries nth Z.to_nat Pos.to_nat
             Pos.iter_op Nat.add Z.sub Z.add Z.pos_sub Z.succ_double
             Z.pred_double Z.double Pos.pred_double Z.opp];
      lia. }
  destruct Hm as (m & Hm & Hwin). exists m. split; [assumption |].
  intros m' s e Hm' Hw. rewrite (month_window_bounds m' Hm') in Hw.
  injection Hw as <- <-. rewrite filterDate_In. unfold in_window. split.
  - intros (_ & t' & Ht' & Hr'). rewrite Ht in Ht'. injection Ht' as <-.
    assert (Hcases : In m [1; 2; 3; 4; 5; 6; 7; 8]) by (simpl; lia).
    apply month_cases in Hm'. unfold months in Hm'.
    revert Hwin Hr'.
    repeat (destruct Hcases as [<- | Hcases];
            [repeat (destruct Hm' as [<- | Hm']; [eval_boundary; lia |]);
             destruct Hm' |]).
    destruct Hcases.
  - intros ->. split; [assumption |]. exists t. auto.
Qed.

(** The first processed image of the March archive is selected by the first
    window only. *)
Lemma first_processed_in_one_window :
  exists m,
    1 <= m <= 8
    /\ forall m' s e,
        1 <= m' <= 12 ->
        month_window m' = Ok (s, e) ->
        (In first_processed
            (EE.filterDate (the_collection (s2_processed march_archive)) s e)
         <-> m' = m).
Proof.
  apply (processed_image_in_one_window march_archive
           (the_collection (s2_processed march_archive)) first_processed).
  - reflexivity.
  - vm_compute. left. reflexivity.
Defined.

(** ** The composites *)

Lemma monthly_timestamps (processed : list (Image Q)) (ms : list Z) :
  Forall (fun i => has_band i "NDVI" = true) processed ->
  exists cs,
    mapM (create_monthly_mvc processed) ms = Ok cs
    /\ map time_start cs
       = map (fun m => Some (Date.advance_month start_millis (m - 1))) ms.
Proof.
  intros Hall. induction ms as [| m ms (cs & Hcs & IH)].
  - exists []. split; reflexivity.
  - destruct (create_monthly_mvc_ok processed m _ _ (month_window_total m) Hall)
      as (comp & Hc & _ & Ht & _).
    exists (comp :: cs). cbn [mapM map]. rewrite Hc, Hcs, Ht, IH.
    split; reflexivity.
Qed.

(** X11.  Over processed images that carry [NDVI], the monthly compositing
    succeeds and yields exactly twelve composites, in month order, stamped
    with the starts of the twelve months from 2024-03-01 to 2025-02-01. *)
Theorem twelve_composites_in_month_order (processed : list (Image Q)) :
  Forall (fun i => has_band i "NDVI" = true) processed ->
  exists monthly,
    monthly_mvc_collection processed = Ok monthly
    /\ List.length monthly = 12%nat
    /\ map time_start monthly = map Some (firstn 12 month_boundaries).
Proof.
  intros Hall.
  destruct (monthly_timestamps processed months Hall) as (cs & Hcs & Ht).
  exists cs. split; [exact Hcs |].
  assert (Hlen : List.length (map time_start cs) = 12%nat)
    by (rewrite Ht; reflexivity).
  rewrite length_map in Hlen. split; [exact Hlen |].
  rewrite Ht. vm_compute. reflexivity.
Qed.

(** The two March images give twelve composites. *)
Lemma march_collection_twelve_composites :
  exists monthly,
    monthly_mvc_collection march_collection = Ok monthly
    /\ List.length monthly = 12%nat
    /\ map time_start monthly = map Some (firstn 12 month_boundaries).
Proof.
  apply twelve_composites_in_month_order. repeat constructor.
Defined.

Lemma processed_ndvi_bounds (archive : list (Image N))
  (processed : list (Image Q)) :
  s2_processed archive = Ok processed ->
  Forall (fun i => forall p v, pixel_value i "NDVI" p = Some v ->
                               (-1 <= v <= 1)%Q) processed.
Proof.
  intros H. apply s2_processed_chain in H.
  eapply Forall2_right; [| exact H].
  intros a y (m & x & Hm & Hx & Hy) p v Hv.
  rewrite (pixel_value_select _ _ _ _ p Hy) in Hv. cbn in Hv.
  rewrite (add_ndvi_pixel _ _ p Hx (masked_has_no_ndvi _ _ Hm)) in Hv.
  destruct (pixel_value m "B8" p) as [nir |]; [| discriminate].
  destruct (pixel_value m "B4" p) as [red |]; [| discriminate].
  now apply normalized_bounds with nir red.
Qed.

(** X12.  Whatever the archive and the month, every valid [NDVI] sample of
    a monthly composite lies between -1 and 1. *)
Theorem composite_within_unit_interval (archive : list (Image N))
  (processed : list (Image Q)) (m : Z) (comp : Image Q) (p : Pixel) (v : Q) :
  s2_processed archive = Ok processed ->
  create_monthly_mvc processed m = Ok comp ->
  pixel_value comp "NDVI" p = Some v ->
  (-1 <= v <= 1)%Q.
Proof.
  intros Hp Hc Hv.
  pose proof (processed_ndvi_bounds _ _ Hp) as Hbounds.
  apply s2_processed_ok in Hp as (Hndvi & _).
  destruct (create_monthly_mvc_ok processed m _ _ (month_window_total m) Hndvi)
    as (comp' & Hc' & _ & _ & Hpix).
  rewrite Hc in Hc'. injection Hc' as <-. rewrite Hpix in Hv.
  pose proof (winner_greatest "NDVI" p
                (EE.filterDate processed
                   (Date.advance_month start_millis (m - 1))
                   (Date.advance_month
                      (Date.advance_month start_millis (m - 1)) 1))) as Hw.
  destruct (EE.winner "NDVI" p _) as [w |]; [| discriminate].
  destruct Hw as (Hin & _). apply filterDate_In in Hin as (Hin & _).
  rewrite Forall_forall in Hbounds. exact (Hbounds w Hin p v Hv).
Qed.

(** The March composite of the March archive holds an index within bounds. *)
Lemma march_archive_composite_within_bounds :
  exists v,
    pixel_value
      (the_image (create_monthly_mvc
                    (the_collection (s2_processed march_archive)) 1))
      "NDVI" (0, 0) = Some v
    /\ (-1 <= v <= 1)%Q.
Proof.
  eexists. split; [vm_compute; reflexivity |].
  apply (composite_within_unit_interval march_archive
           (the_collection (s2_processed march_archive)) 1
           (the_image (create_monthly_mvc
                         (the_collection (s2_processed march_archive)) 1))
           (0, 0)).
  - reflexivity.
  - reflexivity.
  - vm_compute. reflexivity.
Defined.

(** ** The annual mean, further *)

Lemma select_ok_has_band {V : Type} (img out : Image V) (name : string) :
  literal name -> EE.select img name = Ok out -> has_band img name = true.
Proof.
  intros Hlit H. destruct (has_band img name) eqn:E; [reflexivity |].
  rewrite (select_literal_missing img name Hlit E) in H. discriminate.
Qed.

Lemma mean_ndvi_ok_has_band (composites : list (Image Q)) (out : Image Q) :
  mean_ndvi composites = Ok out ->
  Forall (fun c => has_band c "NDVI" = true) composites.
Proof.
  unfold mean_ndvi. intros H. apply bind_ok in H as (sel & Hsel & _).
  apply mapM_ok in Hsel.
  induction Hsel as [| c s l l' Hcs _ IH]; constructor; [| assumption].
  exact (select_ok_has_band _ _ _ literal_NDVI Hcs).
Qed.

(** X13.  The annual mean succeeds exactly when every composite it is given
    carries the band [NDVI]. *)
Theorem annual_mean_succeeds_iff (composites : list (Image Q)) :
  is_ok (mean_ndvi composites) = true
  <-> Forall (fun c => has_band c "NDVI" = true) composites.
Proof.
  split.
  - destruct (mean_ndvi composites) as [out | e] eqn:H; [| discriminate].
    intros _. exact (mean_ndvi_ok_has_band _ _ H).
  - intros H. now destruct (mean_ndvi_ok composites H) as (out & -> & _).
Qed.

(** ** Composites and the size of the collection *)

Lemma winner_monotone (quality : string) (p : Pixel)
  (sel sel' : list (Image Q)) (v : Q) :
  (forall i, In i sel -> In i sel') ->
  match EE.winner quality p sel with
  | Some w => pixel_value w quality p
  | None => None
  end = Some v ->
  exists v',
    match EE.winner quality p sel' with
    | Some w => pixel_value w quality p
    | None => None
    end = Some v'
    /\ (v <= v')%Q.
Proof.
  intros Hincl Hv.
  pose proof (winner_greatest quality p sel) as Hg.
  pose proof (winner_greatest quality p sel') as Hg'.
  destruct (EE.winner quality p sel) as [w |]; [| discriminate Hv].
  destruct Hg as (Hin & _). apply Hincl in Hin.
  destruct (EE.winner quality p sel') as [w' |].
  - destruct Hg' as (_ & v' & Hv' & Hmax). exists v'. split; [assumption |].
    now apply (Hmax w).
  - rewrite (Hg' w Hin) in Hv. discriminate Hv.
Qed.

(** X15.  More images never lower a composite: if every image of one
    processed collection is also in another, then wherever the composite of
    a month over the first is valid, the composite over the second is valid
    too and at least as large. *)
Theorem more_images_never_lower_composite (l l' : list (Image Q)) (m : Z)
  (c c' : Image Q) (p : Pixel) (v : Q) :
  (forall i, In i l -> In i l') ->
  Forall (fun i => has_band i "NDVI" = true) l ->
  Forall (fun i => has_band i "NDVI" = true) l' ->
  create_monthly_mvc l m = Ok c ->
  create_monthly_mvc l' m = Ok c' ->
  pixel_value c "NDVI" p = Some v ->
  exists v', pixel_value c' "NDVI" p = Some v' /\ (v <= v')%Q.
Proof.
  intros Hincl Hl Hl' Hc Hc' Hv.
  pose proof (month_window_total m) as Hw.
  remember (Date.advance_month start_millis (m - 1)) as s eqn:Hs.
  remember (Date.advance_month s 1) as e eqn:He.
  clear Hs He.
  destruct (create_monthly_mvc_ok l m s e Hw Hl) as (x & Hx & _ & _ & Hpx).
  destruct (create_monthly_mvc_ok l' m s e Hw Hl') as (x' & Hx' & _ & _ & Hpx').
  assert (Ex : x = c) by congruence.
  assert (Ex' : x' = c') by congruence.
  subst x x'. clear Hc Hc' Hx Hx' Hw.
  rewrite Hpx in Hv. rewrite Hpx'.
  apply (winner_monotone "NDVI" p (EE.filterDate l s e)); [| exact Hv].
  intros i Hi. apply filterDate_In in Hi as (Hi & Hwin).
  apply filterDate_In. auto.
Qed.

(** The composite of the two March images is at least that of the second
    one alone (0.3). *)
Lemma march_collection_not_lower :
  exists v',
    pixel_value (the_image (create_monthly_mvc march_collection 1))
      "NDVI" (0, 0) = Some v'
    /\ (0.3 <= v')%Q.
Proof.
  apply (more_images_never_lower_composite
           [ndvi_image march_2 (constant 0.3%Q)] march_collection 1
           (the_image (create_monthly_mvc
                         [ndvi_image march_2 (constant 0.3%Q)] 1))
           (the_image (create_monthly_mvc march_collection 1)) (0, 0)).
  - intros i [<- | []]. right. now left.
  - repeat constructor.
  - repeat constructor.
  - reflexivity.
  - reflexivity.
  - reflexivity.
Defined.
